(** * thoth.python.package_version: a shallow embedding and its properties

    The development follows [src/thoth/python/package_version.py]:

    - [Py]: the Python values, exceptions and string built-ins the module
      relies on ([str.startswith], slicing, [str.split], [str.join], [int],
      [str]);
    - [Source], [PipenvMeta]: the two collaborators the module imports;
    - [Semver]: the interface of the external [semantic_version] library,
      with a reference instance [PySemver]; [Comparisons]: how sources,
      versions and specifications compare, as the generated equality and
      order of the class need it;
    - [PackageVersion]: the class itself.  Objects and dictionaries live in
      a store ([World]) and every method is a computation in a state and
      exception monad over that store, so that in-place updates
      ([negate_version], the memoised [_semantic_version], [dict.pop]) and
      aliasing are visible in the statements.

    Methods are embedded as they are written in the class body, with one
    exception: the class is decorated with [@attr.s(slots=True)], whose
    defaults generate [__eq__], [__lt__] and [__gt__] and put them in the
    place of the ones written in lines 59-75. The generated methods are the
    ones that run, and the ones embedded here. Attributes have their
    declared types, and text is ASCII. *)

From Stdlib Require Import ZArith DecimalString Ascii String.
From stdpp Require Import base option gmap strings list.

Local Open Scope string_scope.

(** ** Python values, exceptions and built-ins *)

Module Py.

(** The exception classes that can reach a caller of the module. The
    three classes imported from [.exceptions] are distinct error kinds,
    none of them a [ValueError]. *)
Inductive exn : Set :=
| InternalError
| PipfileParseError
| UnsupportedConfiguration
| ValueError
| KeyError
| AttributeError
| TypeError.

Global Instance exn_eq_dec : EqDecision exn.
Proof. solve_decision. Defined.

(** Values found in the entries of a Pipfile or a Pipfile.lock: [None]
    (a JSON null), strings and lists of strings. *)
Inductive val : Set :=
| VNone
| VStr (s : string)
| VList (l : list string).

Global Instance val_eq_dec : EqDecision val.
Proof. solve_decision. Defined.

(** Truth value testing: [None], the empty string and the empty list are
    false. *)
Definition truthy (v : val) : bool :=
  match v with
  | VNone => false
  | VStr s => negb (String.eqb s "")
  | VList l => negb (bool_decide (l = []))
  end.

(** Pure library calls either return or raise. *)
Inductive result (A : Type) : Type :=
| Ok (a : A)
| Err (e : exn).
Global Arguments Ok {A} a.
Global Arguments Err {A} e.

(** [s.startswith(p)] *)
Fixpoint startswith (s p : string) {struct p} : bool :=
  match p, s with
  | EmptyString, _ => true
  | String a p', String b s' => Ascii.eqb a b && startswith s' p'
  | String _ _, EmptyString => false
  end.

(** [s[n:]] for [0 <= n] *)
Fixpoint slice_from (n : nat) (s : string) : string :=
  match n, s with
  | O, _ => s
  | S n', EmptyString => EmptyString
  | S n', String _ s' => slice_from n' s'
  end.

(** [s.split(sep)] for a one-character separator; the result is never
    empty. *)
Fixpoint split (sep : ascii) (s : string) : list string :=
  match s with
  | EmptyString => [EmptyString]
  | String c s' =>
      if Ascii.eqb c sep then EmptyString :: split sep s'
      else match split sep s' with
           | h :: t => String c h :: t
           | [] => [String c EmptyString]
           end
  end.

(** [sep.join(parts)] *)
Fixpoint join (sep : string) (parts : list string) : string :=
  match parts with
  | [] => EmptyString
  | [p] => p
  | p :: ps => p ++ sep ++ join sep ps
  end.

(** ASCII whitespace as [int] and [str.strip] see it: TAB, LF, VT, FF, CR,
    FS, GS, RS, US and the space. *)
Definition is_space (c : ascii) : bool :=
  let n := nat_of_ascii c in
  ((9 <=? n)%nat && (n <=? 13)%nat) || ((28 <=? n)%nat && (n <=? 32)%nat).

Definition is_digit (c : ascii) : bool :=
  let n := nat_of_ascii c in (48 <=? n)%nat && (n <=? 57)%nat.

Definition digit_value (c : ascii) : Z := Z.of_nat (nat_of_ascii c) - 48.

Fixpoint lstrip (s : string) : string :=
  match s with
  | String c s' => if is_space c then lstrip s' else s
  | EmptyString => EmptyString
  end.

Definition strip (s : string) : string :=
  String.rev (lstrip (String.rev (lstrip s))).

(** Digits of a base-10 integer literal: groups of digits separated by
    single underscores. [seen] tells whether the previous character was a
    digit. *)
Fixpoint int_digits (acc : Z) (seen : bool) (s : string) : option Z :=
  match s with
  | EmptyString => if seen then Some acc else None
  | String c s' =>
      if is_digit c then int_digits (10 * acc + digit_value c) true s'
      else if Ascii.eqb c "_" then
             if seen then int_digits acc false s' else None
           else None
  end.

(** [int(s)] on ASCII text: surrounding whitespace is dropped, one sign is
    allowed, leading zeros are; anything else is a [ValueError]. *)
Definition int (s : string) : result Z :=
  let body := strip s in
  let parsed :=
    match body with
    | String "-" ds => Z.opp <$> int_digits 0 false ds
    | String "+" ds => int_digits 0 false ds
    | _ => int_digits 0 false body
    end in
  match parsed with
  | Some z => Ok z
  | None => Err ValueError
  end.

(** [str(z)] for an integer *)
Definition str (z : Z) : string := NilZero.string_of_int (Z.to_int z).

(** [map(int, parts)] consumed from left to right: the first part that is
    no integer raises. *)
Fixpoint map_int (parts : list string) : result (list Z) :=
  match parts with
  | [] => Ok []
  | p :: ps =>
      match int p with
      | Err e => Err e
      | Ok z => match map_int ps with
                | Err e => Err e
                | Ok zs => Ok (z :: zs)
                end
      end
  end.

End Py.

Import Py.

(** ** Collaborators *)

Module Source.

(** Modelled from the spec: the class [Source] of [thoth/python/source.py]
    is not part of the sources at hand. A package source "has [url] and a
    symbolic [name]"; instances define neither [__bool__] nor [__len__], so
    every instance is true in a condition. *)
Record t : Set := mk { url : string; name : string }.

Global Instance eq_dec : EqDecision t.
Proof. solve_decision. Defined.

End Source.

(** Modelled from the spec: [PipenvMeta] is declared elsewhere in the
    package; the module only reads [meta.sources], "a mapping from symbolic
    index name to a package source". *)
Record PipenvMeta : Type := { sources : gmap string Source.t }.

(** ** The semantic_version library

    [semantic_version] is a third-party package. The operations embedded
    below use the constructor [Version(s)], the class method
    [Version.coerce(s)] and the order on versions; [Spec] is the type of the
    second memoised attribute. They are the fields of this interface. *)
Class Semver : Type := {
  Version : Type;
  Spec : Type;
  Version_new : string -> result Version;
  Version_coerce : string -> result Version;
  Version_lt : Version -> Version -> bool;
  Version_gt : Version -> Version -> bool;
}.

(** ** The store and the monad of computations *)

Abbreviation loc := positive.
Abbreviation dict := (gmap string val).

(** What [from_pipfile_entry] receives as [entry]: a version string or a
    reference to a dictionary. *)
Inductive pipfile_entry : Set :=
| EntryStr (s : string)
| EntryDict (d : loc).

Declare Scope py_scope.
Delimit Scope py_scope with py.

Section Model.

Context `{Semver}.

(** [@attr.s(slots=True) class PackageVersion] with the declared attribute
    types; [hashes] is a list of strings. *)
Record PackageVersion : Type := {
  name : string;
  version : string;
  develop : bool;
  index : option Source.t;
  hashes : list string;
  markers : option string;
  _semantic_version : option Version;
  _version_spec : option Spec;
}.

(** Records emitted through [_LOGGER], with the arguments of the message. *)
Inductive log_record : Type :=
| DebugParsingLockEntry (package_name : string) (entry : dict)
| DebugApproximated (version_identifier : string) (approximated : Version)
| WarningUnusedEntries (package_name : string) (entry : dict)
| DebugGeneratingLockEntry (package_name : string)
| DebugParsingPipfileEntry (package_name : string) (entry : string + dict)
| WarningUnparsedPipfile (entry : dict).

(** The store: package-version instances, dictionaries, and the records
    logged so far (latest first). *)
Record World : Type := {
  objs : gmap loc PackageVersion;
  dicts : gmap loc (gmap string val);
  logger : list log_record;
}.

(** A computation returns, raises, or leaves the fragment of Python the
    model covers ([Stuck]: a reference to no object, or an entry value that
    does not have the declared type of the attribute it is stored in). *)
Inductive outcome (A : Type) : Type :=
| Return (a : A)
| Raise (e : exn)
| Stuck.
Global Arguments Return {A} a.
Global Arguments Raise {A} e.
Global Arguments Stuck {A}.

Definition M (A : Type) : Type := World -> World * outcome A.

Definition ret {A} (a : A) : M A := fun w => (w, Return a).

Definition bind {A B} (c : M A) (k : A -> M B) : M B := fun w =>
  match c w with
  | (w', Return a) => k a w'
  | (w', Raise e) => (w', Raise e)
  | (w', Stuck) => (w', Stuck)
  end.

Notation "x ← c ; k" := (bind c (fun x => k))
  (at level 20, c at level 100, k at level 200, only parsing) : py_scope.
Notation "c ;; k" := (bind c (fun _ => k))
  (at level 100, k at level 200, only parsing, right associativity) : py_scope.
Local Open Scope py_scope.

Definition raise {A} (e : exn) : M A := fun w => (w, Raise e).

Definition stuck {A} : M A := fun w => (w, Stuck).

(** [try: body / except E: handler], where [catches e] tells whether the
    [except] clause matches [e]. Effects of [body] up to the exception are
    kept. *)
Definition try_except {A} (body : M A) (catches : exn -> bool) (handler : M A) : M A :=
  fun w =>
    match body w with
    | (w', Raise e) => if catches e then handler w' else (w', Raise e)
    | r => r
    end.

Definition lift {A} (r : result A) : M A :=
  match r with
  | Ok a => ret a
  | Err e => raise e
  end.

Definition when (b : bool) (c : M unit) : M unit := if b then c else ret tt.

(** *** Store primitives *)

Definition log (r : log_record) : M unit := fun w =>
  ({| objs := objs w; dicts := dicts w; logger := r :: logger w |}, Return tt).

(** Reading an instance through a reference. *)
Definition load (self : loc) : M PackageVersion := fun w =>
  match objs w !! self with
  | Some r => (w, Return r)
  | None => (w, Stuck)
  end.

(** Attribute assignment on an instance. *)
Definition update (self : loc) (f : PackageVersion -> PackageVersion) : M unit := fun w =>
  match objs w !! self with
  | Some r =>
      ({| objs := <[self := f r]> (objs w); dicts := dicts w; logger := logger w |},
       Return tt)
  | None => (w, Stuck)
  end.

Definition set_version (v : string) (r : PackageVersion) : PackageVersion :=
  {| name := name r; version := v; develop := develop r; index := index r;
     hashes := hashes r; markers := markers r;
     _semantic_version := _semantic_version r; _version_spec := _version_spec r |}.

Definition set_semantic_version (v : Version) (r : PackageVersion) : PackageVersion :=
  {| name := name r; version := version r; develop := develop r; index := index r;
     hashes := hashes r; markers := markers r;
     _semantic_version := Some v; _version_spec := _version_spec r |}.

(** A new instance at a fresh reference. *)
Definition new_object (r : PackageVersion) : M loc := fun w =>
  let l := fresh (dom (objs w)) in
  ({| objs := <[l := r]> (objs w); dicts := dicts w; logger := logger w |}, Return l).

Definition dict_load (d : loc) : M dict := fun w =>
  match dicts w !! d with
  | Some m => (w, Return m)
  | None => (w, Stuck)
  end.

Definition dict_store (d : loc) (m : dict) : M unit := fun w =>
  ({| objs := objs w; dicts := <[d := m]> (dicts w); logger := logger w |}, Return tt).

(** [dict(entry)]: a shallow copy at a fresh reference. *)
Definition dict_new (m : dict) : M loc := fun w =>
  let l := fresh (dom (dicts w)) in
  ({| objs := objs w; dicts := <[l := m]> (dicts w); logger := logger w |}, Return l).

Definition dict_copy (d : loc) : M loc :=
  m ← dict_load d; dict_new m.

(** [entry.get(key)] *)
Definition dict_get (d : loc) (key : string) : M val :=
  m ← dict_load d; ret (default VNone (m !! key)).

(** [key in entry] *)
Definition dict_contains (d : loc) (key : string) : M bool :=
  m ← dict_load d; ret (bool_decide (is_Some (m !! key))).

(** [entry.pop(key)] *)
Definition dict_pop (d : loc) (key : string) : M val :=
  m ← dict_load d;
  match m !! key with
  | Some v => dict_store d (delete key m);; ret v
  | None => raise KeyError
  end.

(** [entry.pop(key, dflt)] *)
Definition dict_pop_default (d : loc) (key : string) (dflt : val) : M val :=
  m ← dict_load d;
  match m !! key with
  | Some v => dict_store d (delete key m);; ret v
  | None => ret dflt
  end.

(** Truth value of a dictionary: it is not empty. *)
Definition dict_truthy (d : loc) : M bool :=
  m ← dict_load d; ret (negb (bool_decide (m = ∅))).

(** [any(p(x) for x in xs)]: stops at the first [x] that satisfies [p]. *)
Fixpoint any {A} (p : A -> M bool) (xs : list A) : M bool :=
  match xs with
  | [] => ret false
  | x :: xs' => b ← p x; if b then ret true else any p xs'
  end.

(** *** The class *)

(** [PackageVersion(name=..., version=..., ...)] called with values taken
    from an entry: the attributes get the values as they are; the model
    follows the call when they have the declared types ([version] a string,
    [hashes] a list, [markers] a string or [None]). *)
Definition PackageVersion_init (name_ : string) (version_ : val) (develop_ : bool)
    (index_ : option Source.t) (hashes_ : val) (markers_ : val) : M loc :=
  match version_, hashes_, markers_ with
  | VStr v, VList h, VNone =>
      new_object {| name := name_; version := v; develop := develop_; index := index_;
                    hashes := h; markers := None;
                    _semantic_version := None; _version_spec := None |}
  | VStr v, VList h, VStr m =>
      new_object {| name := name_; version := v; develop := develop_; index := index_;
                    hashes := h; markers := Some m;
                    _semantic_version := None; _version_spec := None |}
  | _, _, _ => stuck
  end.

(** [self.index.url]: [None] has no attribute [url]. *)
Definition index_url (self : loc) : M string :=
  r ← load self;
  match index r with
  | Some src => ret (Source.url src)
  | None => raise AttributeError
  end.

Definition is_locked (self : loc) : M bool :=
  r ← load self; ret (startswith (version r) "==").

Definition duplicate (self : loc) : M loc :=
  r ← load self;
  new_object {| name := name r; version := version r; develop := develop r;
                index := index r; hashes := hashes r; markers := markers r;
                _semantic_version := None; _version_spec := None |}.

Definition negate_version (self : loc) : M unit :=
  locked ← is_locked self;
  if negb locked then raise InternalError
  else
    r ← load self;
    update self (set_version ("!" ++ slice_from 1 (version r))).

Definition locked_version (self : loc) : M string :=
  locked ← is_locked self;
  if negb locked then raise InternalError
  else
    r ← load self;
    ret (slice_from (String.length "==") (version r)).

Definition parse_semantic_version (version_identifier : string)
    (_package_name : option string) : M Version :=
  match Version_new version_identifier with
  | Ok semantic_version => ret semantic_version
  | Err exc =>
      semantic_version ← lift (Version_coerce version_identifier);
      log (DebugApproximated version_identifier semantic_version);;
      ret semantic_version
  end.

Definition is_ValueError (e : exn) : bool := bool_decide (e = ValueError).

Definition semantic_version (self : loc) : M (option Version) :=
  r ← load self;
  when (negb (bool_decide (is_Some (_semantic_version r))))
       (locked ← is_locked self;
        when (negb locked) (raise InternalError));;
  try_except
    (lv ← locked_version self;
     v ← parse_semantic_version lv (Some (name r));
     update self (set_semantic_version v))
    is_ValueError
    (lv ← locked_version self;
     let parts := split "." lv in
     ints ← lift (map_int parts);
     let version := join "." (map str ints) in
     v ← parse_semantic_version version (Some (name r));
     update self (set_semantic_version v));;
  r' ← load self;
  ret (_semantic_version r').

(** [index_name in meta.sources]: a list is not hashable. *)
Definition key_in (index_name : val) (m : gmap string Source.t) : M bool :=
  match index_name with
  | VStr s => ret (bool_decide (is_Some (m !! s)))
  | VNone => ret false
  | VList _ => raise TypeError
  end.

(** [meta.sources[index_name]] *)
Definition subscript (m : gmap string Source.t) (index_name : val) : M Source.t :=
  match index_name with
  | VStr s => match m !! s with
              | Some src => ret src
              | None => raise KeyError
              end
  | VNone => raise KeyError
  | VList _ => raise TypeError
  end.

Definition is_not_None (v : val) : bool :=
  match v with
  | VNone => false
  | _ => true
  end.

Definition _get_index_from_meta (meta : PipenvMeta) (package_name : string)
    (index_name : val) : M (option Source.t) :=
  c1 ← (if is_not_None index_name then key_in index_name (sources meta) else ret false);
  if c1 then src ← subscript (sources meta) index_name; ret (Some src)
  else
    c2 ← (if is_not_None index_name
          then b ← key_in index_name (sources meta); ret (negb b)
          else ret false);
    if c2 then raise PipfileParseError
    else ret None.

Definition from_pipfile_lock_entry (package_name : string) (entry : loc)
    (develop_ : bool) (meta : PipenvMeta) : M loc :=
  shown ← dict_load entry;
  log (DebugParsingLockEntry package_name shown);;
  entry ← dict_copy entry;
  missing ← any (fun conf => v ← dict_get entry conf; ret (negb (truthy v)))
                ["version"; "hashes"];
  if missing then raise PipfileParseError
  else
    version_ ← dict_pop entry "version";
    index_name ← dict_pop_default entry "index" VNone;
    index_ ← _get_index_from_meta meta package_name index_name;
    hashes_ ← dict_pop entry "hashes";
    markers_ ← dict_pop_default entry "markers" VNone;
    instance ← PackageVersion_init package_name version_ develop_ index_ hashes_ markers_;
    unused ← dict_truthy entry;
    when unused (rest ← dict_load entry; log (WarningUnusedEntries package_name rest));;
    ret instance.

Definition opt_truthy (m : option string) : bool :=
  match m with
  | Some s => truthy (VStr s)
  | None => false
  end.

(** The dictionary built in the local variable [result] of
    [to_pipfile_lock]. *)
Definition lock_entry (r : PackageVersion) : dict :=
  let result := <["hashes" := VList (hashes r)]> (<["version" := VStr (version r)]> ∅) in
  let result := if opt_truthy (markers r)
                then <["markers" := from_option VStr VNone (markers r)]> result
                else result in
  match index r with
  | Some src => <["index" := VStr (Source.name src)]> result
  | None => result
  end.

(** The returned dictionaries are new; they are given by value. *)
Definition to_pipfile_lock (self : loc) : M (gmap string dict) :=
  r ← load self;
  log (DebugGeneratingLockEntry (name r));;
  locked ← is_locked self;
  if negb locked then raise InternalError
  else ret {[ name r := lock_entry r ]}.

Definition to_tuple (self : loc) : M (string * string * string) :=
  r ← load self;
  lv ← locked_version self;
  u ← index_url self;
  ret (name r, lv, u).

Definition to_tuple_locked (self : loc) : M (string * string * string) :=
  r ← load self;
  lv ← locked_version self;
  u ← index_url self;
  ret (name r, lv, u).

Definition from_pipfile_entry (package_name : string) (entry : pipfile_entry)
    (develop_ : bool) (meta : PipenvMeta) : M loc :=
  match entry with
  | EntryStr s =>
      log (DebugParsingPipfileEntry package_name (inl s));;
      let package_version := VStr s in
      let index_ := VNone in
      index_ ← _get_index_from_meta meta package_name index_;
      PackageVersion_init package_name package_version develop_ index_ (VList []) VNone
  | EntryDict entry =>
      shown ← dict_load entry;
      log (DebugParsingPipfileEntry package_name (inr shown));;
      vcs ← any (fun vcs => dict_contains entry vcs) ["git"; "hg"; "bzr"; "svn"];
      if vcs then raise UnsupportedConfiguration
      else
        package_version ← dict_pop entry "version";
        index_ ← dict_pop_default entry "index" VNone;
        rest ← dict_truthy entry;
        when rest (left ← dict_load entry; log (WarningUnparsedPipfile left));;
        index_ ← _get_index_from_meta meta package_name index_;
        PackageVersion_init package_name package_version develop_ index_ (VList []) VNone
  end.

(** *** The round trip through a lock entry

    Serialise the instance, take the entry stored under its name, and parse
    that entry again with the same name and [develop] flag. *)
Definition lock_roundtrip (self : loc) (meta : PipenvMeta) : M loc :=
  r ← load self;
  out ← to_pipfile_lock self;
  match out !! name r with
  | Some entry =>
      d ← dict_new entry;
      from_pipfile_lock_entry (name r) d (develop r) meta
  | None => stuck
  end.

(** The instance [r] as a constructor leaves it: nothing memoised. *)
Definition without_caches (r : PackageVersion) : PackageVersion :=
  {| name := name r; version := version r; develop := develop r; index := index r;
     hashes := hashes r; markers := markers r;
     _semantic_version := None; _version_spec := None |}.

(** *** Stores after an operation *)

(** The store in which [self] refers to [r]. *)
Definition set_object (self : loc) (r : PackageVersion) (w : World) : World :=
  {| objs := <[self := r]> (objs w); dicts := dicts w; logger := logger w |}.

(** The store after the records [rs] were logged, latest first. *)
Definition add_log (rs : list log_record) (w : World) : World :=
  {| objs := objs w; dicts := dicts w; logger := rs ++ logger w |}.

(** The store in which [d] refers to the dictionary [m]. *)
Definition set_dict (d : loc) (m : dict) (w : World) : World :=
  {| objs := objs w; dicts := <[d := m]> (dicts w); logger := logger w |}.

(** *** Footprints *)

(** [c] leaves every dictionary as it was. *)
Definition keeps_dicts {A} (c : M A) : Prop :=
  forall w w' o, c w = (w', o) -> dicts w' = dicts w.

(** [c] changes no dictionary but the one [e] refers to. *)
Definition touches_only {A} (e : loc) (c : M A) : Prop :=
  forall w w' o, c w = (w', o) -> forall d, d ≠ e -> dicts w' !! d = dicts w !! d.

(** What [_get_index_from_meta] makes of the value under [index]: no index
    when there is none, the registered source when the name is known. *)
Definition index_resolves (meta : PipenvMeta) (index_name : val)
    (index_ : option Source.t) : Prop :=
  match index_name with
  | VNone => index_ = None
  | VStr s => is_Some index_ /\ sources meta !! s = index_
  | VList _ => False
  end.

(** The instance [r] with [c] in the place of the memoised semantic
    version. *)
Definition with_semantic_version (c : option Version) (r : PackageVersion)
  : PackageVersion :=
  {| name := name r; version := version r; develop := develop r; index := index r;
     hashes := hashes r; markers := markers r;
     _semantic_version := c; _version_spec := _version_spec r |}.

(** *** Entries of a Pipfile, written and read back *)

(** What [to_pipfile] stores under the name of the package: the bare
    version when the instance has no index and no markers, a dictionary
    otherwise. (The debug record the method logs before is not among the
    records of [log_record]; the value is all that is embedded.) *)
Definition pipfile_value (r : PackageVersion) : string + dict :=
  let result : dict := ∅ in
  let result := match index r with
                | Some src => <["index" := VStr (Source.name src)]> result
                | None => result
                end in
  let result := if opt_truthy (markers r)
                then <["markers" := from_option VStr VNone (markers r)]> result
                else result in
  if bool_decide (result = ∅) then inl (version r)
  else inr (<["version" := VStr (version r)]> result).

(** Parsing such a value again: a dictionary is first put in the store. *)
Definition reparse_pipfile (package_name : string) (value : string + dict)
    (develop_ : bool) (meta : PipenvMeta) : M loc :=
  match value with
  | inl s => from_pipfile_entry package_name (EntryStr s) develop_ meta
  | inr m =>
      d ← dict_new m;
      from_pipfile_entry package_name (EntryDict d) develop_ meta
  end.

(** [c] leaves every instance of the store as it was (it may add some). *)
Definition preserves_instances {A} (c : M A) : Prop :=
  forall w w' o, c w = (w', o) ->
  forall l r, objs w !! l = Some r -> objs w' !! l = Some r.

End Model.

(** ** A reference instance of the library interface

    [PySemver] follows release 2.6 of [semantic_version] on ASCII input:
    [Version(s)] accepts MAJOR.MINOR.PATCH with optional [-prerelease] and
    [+build] parts and rejects leading zeros; [Version.coerce(s)] completes
    the longest numeric prefix to three components and turns what follows
    into prerelease and build parts; versions are ordered by their numeric
    components, then by prerelease identifiers, and versions that differ in
    their build part only are unordered. *)

Module PySemver.

Record version : Set := {
  major : N;
  minor : N;
  patch : N;
  prerelease : list string;
  build : list string;
}.

Definition is_alpha (c : ascii) : bool :=
  let n := nat_of_ascii c in
  ((65 <=? n)%nat && (n <=? 90)%nat) || ((97 <=? n)%nat && (n <=? 122)%nat).

(** The character class [[0-9a-zA-Z.-]] *)
Definition is_ident_char (c : ascii) : bool :=
  is_digit c || is_alpha c || Ascii.eqb c "." || Ascii.eqb c "-".

Fixpoint all_chars (p : ascii -> bool) (s : string) : bool :=
  match s with
  | EmptyString => true
  | String c s' => p c && all_chars p s'
  end.

Definition nonempty (s : string) : bool := negb (String.eqb s "").

(** [\d+] *)
Definition is_number (s : string) : bool := nonempty s && all_chars is_digit s.

Definition has_leading_zero (s : string) : bool :=
  match s with
  | String "0" (String _ _) => all_chars is_digit s
  | _ => false
  end.

Fixpoint number_value (acc : N) (s : string) : N :=
  match s with
  | EmptyString => acc
  | String c s' => number_value (10 * acc + N.of_nat (nat_of_ascii c - 48)) s'
  end.

(** [s.split(sep, 1)]: the text before the first [sep] and, when there is
    one, the text after it. *)
Fixpoint cut (sep : ascii) (s : string) : string * option string :=
  match s with
  | EmptyString => (EmptyString, None)
  | String c s' =>
      if Ascii.eqb c sep then (EmptyString, Some s')
      else let '(a, b) := cut sep s' in (String c a, b)
  end.

(** [$] also matches before a final line feed. *)
Definition chomp (s : string) : string :=
  match String.rev s with
  | String "010" r => String.rev r
  | _ => s
  end.

(** Identifiers of a prerelease or build part. *)
Definition identifiers (allow_leading_zeroes : bool) (part : option string)
  : option (list string) :=
  match part with
  | None => Some []
  | Some p =>
      let ids := split "." p in
      if nonempty p && all_chars is_ident_char p
         && forallb nonempty ids
         && (allow_leading_zeroes || forallb (fun i => negb (has_leading_zero i)) ids)
      then Some ids else None
  end.

(** [Version(version_string)] *)
Definition parse (version_string : string) : result version :=
  let '(front, build_part) := cut "+" (chomp version_string) in
  let '(core, prerelease_part) := cut "-" front in
  match split "." core with
  | [a; b; c] =>
      if is_number a && is_number b && is_number c
         && negb (has_leading_zero a || has_leading_zero b || has_leading_zero c)
      then
        match identifiers false prerelease_part, identifiers true build_part with
        | Some pre, Some bld =>
            Ok {| major := number_value 0 a; minor := number_value 0 b;
                  patch := number_value 0 c; prerelease := pre; build := bld |}
        | _, _ => Err ValueError
        end
      else Err ValueError
  | _ => Err ValueError
  end.

Fixpoint span_digits (s : string) : string * string :=
  match s with
  | String c s' =>
      if is_digit c then let '(d, r) := span_digits s' in (String c d, r)
      else (EmptyString, s)
  | EmptyString => (EmptyString, EmptyString)
  end.

(** One more [\.\d+] group, when there is one. *)
Definition dot_number (s : string) : option (string * string) :=
  match s with
  | String "." s' =>
      let '(d, r) := span_digits s' in
      if nonempty d then Some (d, r) else None
  | _ => None
  end.

(** The match of [^\d+(?:\.\d+(?:\.\d+)?)?], completed with [.0] to three
    components, and the text after the match. *)
Definition base_match (s : string) : option (string * string) :=
  let '(a, r) := span_digits s in
  if nonempty a then
    match dot_number r with
    | None => Some (a ++ ".0.0", r)
    | Some (b, r') =>
        match dot_number r' with
        | None => Some (a ++ "." ++ b ++ ".0", r')
        | Some (c, r'') => Some (a ++ "." ++ b ++ "." ++ c, r'')
        end
    end
  else None.

Fixpoint replace_chars (f : ascii -> ascii) (s : string) : string :=
  match s with
  | EmptyString => EmptyString
  | String c s' => String (f c) (replace_chars f s')
  end.

(** [re.sub(r'[^a-zA-Z0-9+.-]', '-', rest)] *)
Definition cleanup (rest : string) : string :=
  replace_chars (fun c => if is_ident_char c || Ascii.eqb c "+" then c else "-"%char) rest.

Definition pre_and_build (rest : string) : string * string :=
  let '(a, b) := cut "+" rest in (a, default EmptyString b).

(** [Version.coerce(version_string)] *)
Definition coerce (version_string : string) : result version :=
  match base_match version_string with
  | None => Err ValueError
  | Some (v, EmptyString) => parse v
  | Some (v, rest) =>
      let '(pre, bld) :=
        match cleanup rest with
        | String "+" r => (EmptyString, r)
        | String "." r => (EmptyString, r)
        | String "-" r => pre_and_build r
        | r => pre_and_build r
        end in
      let bld := replace_chars (fun c => if Ascii.eqb c "+" then "."%char else c) bld in
      let v := if nonempty pre then v ++ "-" ++ pre else v in
      let v := if nonempty bld then v ++ "+" ++ bld else v in
      parse v
  end.

(** Identifiers that read as integers come before the others and are
    compared as integers. *)
Definition identifier_cmp (a b : string) : comparison :=
  match int a, int b with
  | Ok x, Ok y => Z.compare x y
  | Ok _, Err _ => Lt
  | Err _, Ok _ => Gt
  | Err _, Err _ => String.compare a b
  end.

Fixpoint identifier_list_cmp (a b : list string) : comparison :=
  match a, b with
  | x :: a', y :: b' =>
      match identifier_cmp x y with
      | Eq => identifier_list_cmp a' b'
      | c => c
      end
  | [], [] => Eq
  | [], _ :: _ => Lt
  | _ :: _, [] => Gt
  end.

(** A version with a prerelease part comes before the same version
    without. *)
Definition prerelease_cmp (a b : list string) : comparison :=
  match a, b with
  | [], [] => Eq
  | _ :: _, [] => Lt
  | [], _ :: _ => Gt
  | _, _ => identifier_list_cmp a b
  end.

(** [None] stands for [NotImplemented]: build parts are not ordered. *)
Definition cmp (a b : version) : option comparison :=
  match N.compare (major a) (major b) with
  | Eq =>
      match N.compare (minor a) (minor b) with
      | Eq =>
          match N.compare (patch a) (patch b) with
          | Eq =>
              match prerelease_cmp (prerelease a) (prerelease b) with
              | Eq => if bool_decide (build a = build b) then Some Eq else None
              | c => Some c
              end
          | c => Some c
          end
      | c => Some c
      end
  | c => Some c
  end.

Definition lt (a b : version) : bool :=
  match cmp a b with Some Lt => true | _ => false end.

Definition gt (a b : version) : bool :=
  match cmp a b with Some Gt => true | _ => false end.

(** A version specification, as its clauses: an operator and a version. *)
Definition spec : Set := list (string * version).

End PySemver.

Definition PySemver_instance : Semver := {|
  Version := PySemver.version;
  Spec := PySemver.spec;
  Version_new := PySemver.parse;
  Version_coerce := PySemver.coerce;
  Version_lt := PySemver.lt;
  Version_gt := PySemver.gt;
|}.

(** ** Comparison, as [attr.s] generates it

    [@attr.s(slots=True)] is given neither [eq], [order], [cmp] nor
    [auto_detect]: equality and order are generated, and the generated
    [__eq__], [__lt__] and [__gt__] replace the methods of the class body.
    They compare the tuples of all attributes in the order of their
    declaration: [name], [version], [develop], [index], [hashes],
    [markers], [_semantic_version], [_version_spec].

    How two sources, two versions and two specifications compare is decided
    by their own classes, which are not at hand; these comparisons are the
    fields of the interface below. An object compares equal to itself before
    [==] is asked, so the three equalities are taken to be reflexive. *)
Class Comparisons `{Semver} : Type := {
  Source_eq : Source.t -> Source.t -> bool;
  Source_lt : Source.t -> Source.t -> result bool;
  Source_gt : Source.t -> Source.t -> result bool;
  Version_eq : Version -> Version -> bool;
  Spec_eq : Spec -> Spec -> bool;
  Spec_lt : Spec -> Spec -> result bool;
  Spec_gt : Spec -> Spec -> result bool;
}.

Section Comparison.

Context `{Semver} `{!Comparisons}.

Notation "x ← c ; k" := (bind c (fun x => k))
  (at level 20, c at level 100, k at level 200, only parsing) : py_scope.
Local Open Scope py_scope.

(** [x == y] for attributes that may be [None]: [None] equals [None] only. *)
Definition option_eq {A} (eq : A -> A -> bool) (x y : option A) : bool :=
  match x, y with
  | None, None => true
  | Some a, Some b => eq a b
  | _, _ => false
  end.

(** [x < y] or [x > y] for attributes that may be [None]: [None] is not
    ordered. *)
Definition option_order {A} (op : A -> A -> result bool) (x y : option A)
  : result bool :=
  match x, y with
  | Some a, Some b => op a b
  | _, _ => Err TypeError
  end.

(** [xs < ys] on lists of strings: the first two elements that differ
    decide; without any, the shorter list is the smaller. *)
Fixpoint list_lt (xs ys : list string) : bool :=
  match xs, ys with
  | [], [] => false
  | [], _ :: _ => true
  | _ :: _, [] => false
  | x :: xs', y :: ys' => if String.eqb x y then list_lt xs' ys' else String.ltb x y
  end.

(** Equality of the two tuples of attributes. *)
Definition attrs_eq (a b : PackageVersion) : bool :=
  String.eqb (name a) (name b)
  && String.eqb (version a) (version b)
  && Bool.eqb (develop a) (develop b)
  && option_eq Source_eq (index a) (index b)
  && bool_decide (hashes a = hashes b)
  && option_eq String.eqb (markers a) (markers b)
  && option_eq Version_eq (_semantic_version a) (_semantic_version b)
  && option_eq Spec_eq (_version_spec a) (_version_spec b).

(** The operator [<] or [>] on each kind of attribute. *)
Record ordering : Type := {
  on_str : string -> string -> bool;
  on_bool : bool -> bool -> bool;
  on_list : list string -> list string -> bool;
  on_source : Source.t -> Source.t -> result bool;
  on_version : Version -> Version -> bool;
  on_spec : Spec -> Spec -> result bool;
}.

Definition less : ordering := {|
  on_str := String.ltb;
  on_bool x y := negb x && y;
  on_list := list_lt;
  on_source := Source_lt;
  on_version := Version_lt;
  on_spec := Spec_lt;
|}.

Definition greater : ordering := {|
  on_str x y := String.ltb y x;
  on_bool x y := x && negb y;
  on_list xs ys := list_lt ys xs;
  on_source := Source_gt;
  on_version := Version_gt;
  on_spec := Spec_gt;
|}.

(** Order of the two tuples of attributes: the first attribute in which
    they differ decides, by its own [<] or [>]; equal tuples are neither
    smaller nor greater. *)
Definition attrs_order (op : ordering) (a b : PackageVersion) : result bool :=
  if negb (String.eqb (name a) (name b)) then Ok (on_str op (name a) (name b))
  else if negb (String.eqb (version a) (version b))
  then Ok (on_str op (version a) (version b))
  else if negb (Bool.eqb (develop a) (develop b))
  then Ok (on_bool op (develop a) (develop b))
  else if negb (option_eq Source_eq (index a) (index b))
  then option_order (on_source op) (index a) (index b)
  else if negb (bool_decide (hashes a = hashes b))
  then Ok (on_list op (hashes a) (hashes b))
  else if negb (option_eq String.eqb (markers a) (markers b))
  then option_order (fun x y => Ok (on_str op x y)) (markers a) (markers b)
  else if negb (option_eq Version_eq (_semantic_version a) (_semantic_version b))
  then option_order (fun x y => Ok (on_version op x y))
         (_semantic_version a) (_semantic_version b)
  else if negb (option_eq Spec_eq (_version_spec a) (_version_spec b))
  then option_order (on_spec op) (_version_spec a) (_version_spec b)
  else Ok false.

(** The generated methods. Compared with itself an instance is equal, and
    neither smaller nor greater: all attributes are the same objects. *)
Definition __eq__ (self other : loc) : M bool :=
  a ← load self;
  b ← load other;
  if bool_decide (self = other) then ret true
  else ret (attrs_eq a b).

Definition __lt__ (self other : loc) : M bool :=
  a ← load self;
  b ← load other;
  if bool_decide (self = other) then ret false
  else lift (attrs_order less a b).

Definition __gt__ (self other : loc) : M bool :=
  a ← load self;
  b ← load other;
  if bool_decide (self = other) then ret false
  else lift (attrs_order greater a b).

End Comparison.

(** The comparisons of the reference instance: two sources compare as the
    tuples of their two fields, as a class decorated like this one would;
    two versions are equal when the library's comparison finds no
    difference; specifications are equal clause by clause and are not
    ordered. *)
Definition PySemver_version_eq (a b : PySemver.version) : bool :=
  match PySemver.cmp a b with Some Eq => true | _ => false end.

Fixpoint PySemver_spec_eq (a b : PySemver.spec) : bool :=
  match a, b with
  | [], [] => true
  | (k1, v1) :: a', (k2, v2) :: b' =>
      String.eqb k1 k2 && PySemver_version_eq v1 v2 && PySemver_spec_eq a' b'
  | _, _ => false
  end.

Definition PySemver_source_lt (a b : Source.t) : result bool :=
  Ok (if String.eqb (Source.url a) (Source.url b)
      then String.ltb (Source.name a) (Source.name b)
      else String.ltb (Source.url a) (Source.url b)).

Definition PySemver_comparisons : @Comparisons PySemver_instance :=
  @Build_Comparisons PySemver_instance
    (fun a b => bool_decide (a = b))
    PySemver_source_lt
    (fun a b => PySemver_source_lt b a)
    PySemver_version_eq
    PySemver_spec_eq
    (fun _ _ => Err TypeError)
    (fun _ _ => Err TypeError).

(** ** Sample data *)

Module Examples.

#[local] Existing Instance PySemver_instance.

Definition pypi : Source.t := Source.mk "https://pypi.org/simple" "pypi".
Definition mirror : Source.t := Source.mk "https://mirror.example/simple" "mirror".

Definition package (name_ version_ : string) (index_ : option Source.t)
    (hashes_ : list string) (markers_ : option string) : PackageVersion :=
  {| name := name_; version := version_; develop := false; index := index_;
     hashes := hashes_; markers := markers_;
     _semantic_version := None; _version_spec := None |}.

(** A store with the given instances at references 1, 2, ... and the given
    dictionaries at references 1, 2, ... *)
Definition world (instances : list PackageVersion) (entries : list dict) : World :=
  {| objs := list_to_map (imap (fun i r => (Pos.of_succ_nat i, r)) instances);
     dicts := list_to_map (imap (fun i d => (Pos.of_succ_nat i, d)) entries);
     logger := [] |}.

Definition meta_pypi : PipenvMeta := {| sources := {[ "pypi" := pypi ]} |}.

(** Two instances that differ in their index only. *)
Definition from_pypi : PackageVersion :=
  package "pkg" "==1.0.0" (Some pypi) ["sha256:aa"] None.
Definition from_mirror : PackageVersion :=
  package "pkg" "==1.0.0" (Some mirror) ["sha256:aa"] None.

(** Instances without an index, as [from_pipfile_entry] builds them for a
    bare version string. *)
Definition locked_1_2_3 : PackageVersion := package "pkg" "==1.2.3" None [] None.
Definition unlocked : PackageVersion := package "pkg" ">=1.0" None [] None.
Definition other_name : PackageVersion := package "other" "==1.2.3" None [] None.
Definition v1 : PackageVersion := package "pkg" "==1.0.0" None [] None.
Definition v2 : PackageVersion := package "pkg" "==2.0.0" None [] None.
Definition leading_zero : PackageVersion := package "pkg" "==3.01.2" None [] None.

(** A complete locked instance. *)
Definition complete : PackageVersion :=
  package "pkg" "==1.0.0" (Some pypi) ["sha256:aa"; "sha256:bb"]
    (Some "python_version >= '3.6'").

(** Entries of a Pipfile.lock. *)
Definition entry_pypi : dict :=
  <["index" := VStr "pypi"]>
    (<["hashes" := VList ["sha256:aa"]]> (<["version" := VStr "==1.0.0"]> ∅)).
Definition entry_private : dict :=
  <["index" := VStr "private"]>
    (<["hashes" := VList ["sha256:aa"]]> (<["version" := VStr "==1.0.0"]> ∅)).
Definition entry_no_hashes : dict := <["version" := VStr "==1.0.0"]> ∅.

(** Entries of a Pipfile. *)
Definition entry_plain : dict :=
  <["index" := VStr "pypi"]> (<["version" := VStr ">=1.0"]> ∅).
Definition entry_git : dict :=
  <["git" := VStr "https://github.com/thoth-station/python"]>
    (<["version" := VStr "*"]> ∅).
Definition entry_markers_only : dict := <["markers" := VStr "os_name == 'nt'"]> ∅.

(** The instance [from_pypi] without its hashes. *)
Definition from_pypi_bare : PackageVersion :=
  package "pkg" "==1.0.0" (Some pypi) [] None.

(** Two locked versions whose order as text is not their order as
    versions. *)
Definition v9 : PackageVersion := package "pkg" "==9.0.0" None [] None.
Definition v10 : PackageVersion := package "pkg" "==10.0.0" None [] None.

(** An instance with markers and without index or hashes. *)
Definition with_markers : PackageVersion :=
  package "pkg" ">=1.0" None [] (Some "os_name == 'nt'").

(** An entry of a Pipfile.lock with a key the parser does not know. *)
Definition entry_extra_key : dict := <["editable" := VStr "true"]> entry_pypi.

(** A complete entry of a Pipfile.lock. *)
Definition entry_complete : dict :=
  <["markers" := VStr "os_name == 'nt'"]> entry_pypi.

End Examples.

(** ** Running the primitives *)

Section Run.

Context `{Semver}.

Lemma bind_Return {A B} (c : M A) (k : A -> M B) w w' a :
  c w = (w', Return a) -> bind c k w = k a w'.
Proof. intros Hc. unfold bind. now rewrite Hc. Qed.

Lemma bind_Raise {A B} (c : M A) (k : A -> M B) w w' e :
  c w = (w', Raise e) -> bind c k w = (w', Raise e).
Proof. intros Hc. unfold bind. now rewrite Hc. Qed.

Lemma load_run w self r :
  objs w !! self = Some r -> load self w = (w, Return r).
Proof. intros Hr. unfold load. now rewrite Hr. Qed.

Lemma update_run w self r f :
  objs w !! self = Some r ->
  update self f w =
    ({| objs := <[self := f r]> (objs w); dicts := dicts w; logger := logger w |},
     Return tt).
Proof. intros Hr. unfold update. now rewrite Hr. Qed.

Lemma is_locked_run w self r :
  objs w !! self = Some r ->
  is_locked self w = (w, Return (startswith (version r) "==")).
Proof.
  intros Hr. unfold is_locked.
  now rewrite (bind_Return _ _ _ _ _ (load_run _ _ _ Hr)).
Qed.

Lemma locked_version_locked w self r :
  objs w !! self = Some r ->
  startswith (version r) "==" = true ->
  locked_version self w = (w, Return (slice_from 2 (version r))).
Proof.
  intros Hr Hl. unfold locked_version.
  rewrite (bind_Return _ _ _ _ _ (is_locked_run _ _ _ Hr)), Hl. simpl.
  now rewrite (bind_Return _ _ _ _ _ (load_run _ _ _ Hr)).
Qed.

Lemma locked_version_unlocked w self r :
  objs w !! self = Some r ->
  startswith (version r) "==" = false ->
  locked_version self w = (w, Raise InternalError).
Proof.
  intros Hr Hl. unfold locked_version.
  now rewrite (bind_Return _ _ _ _ _ (is_locked_run _ _ _ Hr)), Hl.
Qed.

Lemma index_url_Some w self r src :
  objs w !! self = Some r -> index r = Some src ->
  index_url self w = (w, Return (Source.url src)).
Proof.
  intros Hr Hi. unfold index_url.
  now rewrite (bind_Return _ _ _ _ _ (load_run _ _ _ Hr)), Hi.
Qed.

Lemma index_url_None w self r :
  objs w !! self = Some r -> index r = None ->
  index_url self w = (w, Raise AttributeError).
Proof.
  intros Hr Hi. unfold index_url.
  now rewrite (bind_Return _ _ _ _ _ (load_run _ _ _ Hr)), Hi.
Qed.

(** A version that starts with [==] is [==] followed by its locked part. *)
Lemma startswith_eqeq s :
  startswith s "==" = true <-> s = "==" ++ slice_from 2 s.
Proof.
  split.
  - destruct s as [|a [|b s]]; cbn [startswith]; intros Hp; try discriminate Hp.
    + now rewrite andb_false_r in Hp.
    + apply andb_true_iff in Hp as [Ha Hb]. rewrite andb_true_r in Hb.
      apply Ascii.eqb_eq in Ha, Hb. now subst.
  - intros Hs. rewrite Hs. reflexivity.
Qed.

Lemma String_eqb_false a b : a ≠ b -> String.eqb a b = false.
Proof. intros Hn. now apply String.eqb_neq. Qed.

End Run.

(** ** Parsing the semantic version *)

Section SemanticVersion.

Context `{Semver}.

Lemma parse_strict w s n v :
  Version_new s = Ok v ->
  parse_semantic_version s n w = (w, Return v).
Proof. intros Hs. unfold parse_semantic_version. now rewrite Hs. Qed.

Lemma parse_coerced w s n e v :
  Version_new s = Err e -> Version_coerce s = Ok v ->
  parse_semantic_version s n w =
    ({| objs := objs w; dicts := dicts w;
        logger := DebugApproximated s v :: logger w |}, Return v).
Proof.
  intros Hs Hc. unfold parse_semantic_version. rewrite Hs.
  unfold bind, lift. now rewrite Hc.
Qed.

Lemma parse_raises w s n e e' :
  Version_new s = Err e -> Version_coerce s = Err e' ->
  parse_semantic_version s n w = (w, Raise e').
Proof.
  intros Hs Hc. unfold parse_semantic_version. rewrite Hs.
  unfold bind, lift. now rewrite Hc.
Qed.

(** Parsing touches the logger only. *)
Lemma parse_frame w s n w' o :
  parse_semantic_version s n w = (w', o) ->
  objs w' = objs w /\ dicts w' = dicts w.
Proof.
  unfold parse_semantic_version.
  destruct (Version_new s) as [v|e].
  - intros [= <- _]. auto.
  - unfold bind, lift. destruct (Version_coerce s) as [v|e'].
    + intros [= <- _]. auto.
    + intros [= <- _]. auto.
Qed.

(** The guard at the head of [semantic_version] lets a locked instance
    through, whatever the cache holds. *)
Lemma guard_locked w self r :
  objs w !! self = Some r ->
  startswith (version r) "==" = true ->
  when (negb (bool_decide (is_Some (_semantic_version r))))
       (bind (is_locked self) (fun locked => when (negb locked) (raise InternalError))) w
  = (w, Return tt).
Proof.
  intros Hr Hl. destruct (negb _); [|reflexivity]. cbn [when].
  rewrite (bind_Return _ _ _ _ _ (is_locked_run _ _ _ Hr)), Hl. reflexivity.
Qed.

Lemma load_updated (o : gmap loc PackageVersion) d lg self x :
  load self {| objs := <[self := x]> o; dicts := d; logger := lg |}
  = ({| objs := <[self := x]> o; dicts := d; logger := lg |}, Return x).
Proof. apply load_run. cbn. apply lookup_insert_eq. Qed.

(** The first attempt succeeds. *)
Lemma semantic_version_first w self r w1 v :
  objs w !! self = Some r ->
  startswith (version r) "==" = true ->
  parse_semantic_version (slice_from 2 (version r)) (Some (name r)) w = (w1, Return v) ->
  semantic_version self w =
    ({| objs := <[self := set_semantic_version v r]> (objs w1);
        dicts := dicts w1; logger := logger w1 |}, Return (Some v)).
Proof.
  intros Hr Hl Hp. destruct (parse_frame _ _ _ _ _ Hp) as [Ho _].
  assert (Hr1 : objs w1 !! self = Some r) by now rewrite Ho.
  unfold semantic_version.
  rewrite (bind_Return _ _ _ _ _ (load_run _ _ _ Hr)).
  rewrite (bind_Return _ _ _ _ _ (guard_locked _ _ _ Hr Hl)).
  unfold bind at 1. unfold try_except.
  rewrite (bind_Return _ _ _ _ _ (locked_version_locked _ _ _ Hr Hl)).
  rewrite (bind_Return _ _ _ _ _ Hp).
  rewrite (update_run _ _ _ _ Hr1).
  now rewrite (bind_Return _ _ _ _ _ (load_updated _ _ _ _ _)).
Qed.

(** The first attempt raises something else than [ValueError]. *)
Lemma semantic_version_first_raises w self r w1 e :
  objs w !! self = Some r ->
  startswith (version r) "==" = true ->
  parse_semantic_version (slice_from 2 (version r)) (Some (name r)) w = (w1, Raise e) ->
  e ≠ ValueError ->
  semantic_version self w = (w1, Raise e).
Proof.
  intros Hr Hl Hp He. unfold semantic_version.
  rewrite (bind_Return _ _ _ _ _ (load_run _ _ _ Hr)).
  rewrite (bind_Return _ _ _ _ _ (guard_locked _ _ _ Hr Hl)).
  unfold bind at 1. unfold try_except.
  rewrite (bind_Return _ _ _ _ _ (locked_version_locked _ _ _ Hr Hl)).
  rewrite (bind_Raise _ _ _ _ _ Hp).
  unfold is_ValueError. now rewrite bool_decide_eq_false_2.
Qed.

(** The first attempt raises [ValueError] and a component is no integer. *)
Lemma semantic_version_retry_int w self r w1 e :
  objs w !! self = Some r ->
  startswith (version r) "==" = true ->
  parse_semantic_version (slice_from 2 (version r)) (Some (name r)) w = (w1, Raise ValueError) ->
  map_int (split "." (slice_from 2 (version r))) = Err e ->
  semantic_version self w = (w1, Raise e).
Proof.
  intros Hr Hl Hp Hi. destruct (parse_frame _ _ _ _ _ Hp) as [Ho _].
  assert (Hr1 : objs w1 !! self = Some r) by now rewrite Ho.
  unfold semantic_version.
  rewrite (bind_Return _ _ _ _ _ (load_run _ _ _ Hr)).
  rewrite (bind_Return _ _ _ _ _ (guard_locked _ _ _ Hr Hl)).
  unfold bind at 1. unfold try_except.
  rewrite (bind_Return _ _ _ _ _ (locked_version_locked _ _ _ Hr Hl)).
  rewrite (bind_Raise _ _ _ _ _ Hp).
  unfold is_ValueError. rewrite bool_decide_eq_true_2 by reflexivity.
  rewrite (bind_Return _ _ _ _ _ (locked_version_locked _ _ _ Hr1 Hl)).
  rewrite Hi. reflexivity.
Qed.

(** The first attempt raises [ValueError]; the retry on the rebuilt version
    returns or raises. *)
Lemma semantic_version_retry w self r w1 ints w2 o :
  objs w !! self = Some r ->
  startswith (version r) "==" = true ->
  parse_semantic_version (slice_from 2 (version r)) (Some (name r)) w = (w1, Raise ValueError) ->
  map_int (split "." (slice_from 2 (version r))) = Ok ints ->
  parse_semantic_version (join "." (map str ints)) (Some (name r)) w1 = (w2, o) ->
  semantic_version self w =
    match o with
    | Return v =>
        ({| objs := <[self := set_semantic_version v r]> (objs w2);
            dicts := dicts w2; logger := logger w2 |}, Return (Some v))
    | Raise e => (w2, Raise e)
    | Stuck => (w2, Stuck)
    end.
Proof.
  intros Hr Hl Hp Hi Hq.
  destruct (parse_frame _ _ _ _ _ Hp) as [Ho _].
  destruct (parse_frame _ _ _ _ _ Hq) as [Ho2 _].
  assert (Hr1 : objs w1 !! self = Some r) by now rewrite Ho.
  assert (Hr2 : objs w2 !! self = Some r) by now rewrite Ho2.
  unfold semantic_version.
  rewrite (bind_Return _ _ _ _ _ (load_run _ _ _ Hr)).
  rewrite (bind_Return _ _ _ _ _ (guard_locked _ _ _ Hr Hl)).
  unfold bind at 1. unfold try_except.
  rewrite (bind_Return _ _ _ _ _ (locked_version_locked _ _ _ Hr Hl)).
  rewrite (bind_Raise _ _ _ _ _ Hp).
  unfold is_ValueError. rewrite bool_decide_eq_true_2 by reflexivity.
  rewrite (bind_Return _ _ _ _ _ (locked_version_locked _ _ _ Hr1 Hl)).
  rewrite Hi. unfold lift. unfold bind at 1. unfold ret at 1.
  destruct o as [v|e|].
  - rewrite (bind_Return _ _ _ _ _ Hq). rewrite (update_run _ _ _ _ Hr2).
    now rewrite (bind_Return _ _ _ _ _ (load_updated _ _ _ _ _)).
  - rewrite (bind_Raise _ _ _ _ _ Hq). reflexivity.
  - unfold bind at 1. rewrite Hq. reflexivity.
Qed.

End SemanticVersion.

(** ** Dictionaries *)

Section Dicts.

Context `{Semver}.

Lemma dict_load_run w d m :
  dicts w !! d = Some m -> dict_load d w = (w, Return m).
Proof. intros Hd. unfold dict_load. now rewrite Hd. Qed.

Lemma dict_get_run w d m key :
  dicts w !! d = Some m ->
  dict_get d key w = (w, Return (default VNone (m !! key))).
Proof.
  intros Hd. unfold dict_get.
  now rewrite (bind_Return _ _ _ _ _ (dict_load_run _ _ _ Hd)).
Qed.

Lemma dict_contains_run w d m key :
  dicts w !! d = Some m ->
  dict_contains d key w = (w, Return (bool_decide (is_Some (m !! key)))).
Proof.
  intros Hd. unfold dict_contains.
  now rewrite (bind_Return _ _ _ _ _ (dict_load_run _ _ _ Hd)).
Qed.

Lemma dict_truthy_run w d m :
  dicts w !! d = Some m ->
  dict_truthy d w = (w, Return (negb (bool_decide (m = ∅)))).
Proof.
  intros Hd. unfold dict_truthy.
  now rewrite (bind_Return _ _ _ _ _ (dict_load_run _ _ _ Hd)).
Qed.

Lemma dict_pop_Some w d m key v :
  dicts w !! d = Some m -> m !! key = Some v ->
  dict_pop d key w = (set_dict d (delete key m) w, Return v).
Proof.
  intros Hd Hk. unfold dict_pop.
  rewrite (bind_Return _ _ _ _ _ (dict_load_run _ _ _ Hd)), Hk. reflexivity.
Qed.

Lemma dict_pop_None w d m key :
  dicts w !! d = Some m -> m !! key = None ->
  dict_pop d key w = (w, Raise KeyError).
Proof.
  intros Hd Hk. unfold dict_pop.
  rewrite (bind_Return _ _ _ _ _ (dict_load_run _ _ _ Hd)), Hk. reflexivity.
Qed.

Lemma set_dict_id w d m : dicts w !! d = Some m -> set_dict d m w = w.
Proof.
  intros Hd. destruct w as [o ds lg]. unfold set_dict. cbn in *.
  now rewrite insert_id.
Qed.

Lemma set_dict_set_dict w d m m' : set_dict d m' (set_dict d m w) = set_dict d m' w.
Proof. unfold set_dict. cbn. now rewrite insert_insert_eq. Qed.

Lemma dicts_set_dict w d m : dicts (set_dict d m w) !! d = Some m.
Proof. cbn. apply lookup_insert_eq. Qed.

Lemma dict_pop_default_run w d m key dflt :
  dicts w !! d = Some m ->
  dict_pop_default d key dflt w =
    (set_dict d (delete key m) w, Return (default dflt (m !! key))).
Proof.
  intros Hd. unfold dict_pop_default.
  rewrite (bind_Return _ _ _ _ _ (dict_load_run _ _ _ Hd)).
  destruct (m !! key) as [v|] eqn:Hk; [reflexivity|].
  rewrite delete_id by exact Hk. now rewrite set_dict_id.
Qed.

Lemma dict_copy_run w d m :
  dicts w !! d = Some m ->
  dict_copy d w = (set_dict (fresh (dom (dicts w))) m w, Return (fresh (dom (dicts w)))).
Proof.
  intros Hd. unfold dict_copy.
  now rewrite (bind_Return _ _ _ _ _ (dict_load_run _ _ _ Hd)).
Qed.

(** The copy is a dictionary of its own. *)
Lemma fresh_dict_ne w d m :
  dicts w !! d = Some m -> d ≠ fresh (dom (dicts w)).
Proof.
  intros Hd Heq. apply (is_fresh (dom (dicts w))).
  rewrite <- Heq. apply elem_of_dom. eauto.
Qed.

(** The test for a missing or empty [version] or [hashes]. *)
Lemma missing_check_run w e m :
  dicts w !! e = Some m ->
  any (fun conf => bind (dict_get e conf) (fun v => ret (negb (truthy v))))
      ["version"; "hashes"] w
  = (w, Return (negb (truthy (default VNone (m !! "version")))
                || negb (truthy (default VNone (m !! "hashes"))))).
Proof.
  intros Hd. cbn [any].
  rewrite (bind_Return _ _ _ _ _
             (bind_Return _ _ _ _ _ (dict_get_run _ _ _ "version" Hd))).
  unfold ret at 1.
  destruct (negb (truthy (default VNone (m !! "version")))); [reflexivity|].
  rewrite (bind_Return _ _ _ _ _
             (bind_Return _ _ _ _ _ (dict_get_run _ _ _ "hashes" Hd))).
  unfold ret at 1.
  now destruct (negb (truthy (default VNone (m !! "hashes")))).
Qed.

(** The test for a version control system. *)
Lemma vcs_check_run w e m :
  dicts w !! e = Some m ->
  any (fun vcs => dict_contains e vcs) ["git"; "hg"; "bzr"; "svn"] w
  = (w, Return (bool_decide (is_Some (m !! "git")) || bool_decide (is_Some (m !! "hg"))
                || bool_decide (is_Some (m !! "bzr")) || bool_decide (is_Some (m !! "svn")))).
Proof.
  intros Hd. cbn [any].
  rewrite (bind_Return _ _ _ _ _ (dict_contains_run _ _ _ "git" Hd)).
  destruct (bool_decide (is_Some (m !! "git"))); [reflexivity|].
  rewrite (bind_Return _ _ _ _ _ (dict_contains_run _ _ _ "hg" Hd)).
  destruct (bool_decide (is_Some (m !! "hg"))); [reflexivity|].
  rewrite (bind_Return _ _ _ _ _ (dict_contains_run _ _ _ "bzr" Hd)).
  destruct (bool_decide (is_Some (m !! "bzr"))); [reflexivity|].
  rewrite (bind_Return _ _ _ _ _ (dict_contains_run _ _ _ "svn" Hd)).
  now destruct (bool_decide (is_Some (m !! "svn"))).
Qed.

(** *** The index of an entry *)

Lemma get_index_None w meta package_name :
  _get_index_from_meta meta package_name VNone w = (w, Return None).
Proof. reflexivity. Qed.

Lemma get_index_found w meta package_name s src :
  sources meta !! s = Some src ->
  _get_index_from_meta meta package_name (VStr s) w = (w, Return (Some src)).
Proof.
  intros Hs. unfold _get_index_from_meta, bind, key_in, subscript, ret. cbn.
  rewrite Hs. now rewrite bool_decide_eq_true_2 by eauto.
Qed.

Lemma get_index_unknown w meta package_name s :
  sources meta !! s = None ->
  _get_index_from_meta meta package_name (VStr s) w = (w, Raise PipfileParseError).
Proof.
  intros Hs. unfold _get_index_from_meta, bind, key_in, subscript, ret. cbn.
  rewrite Hs. rewrite bool_decide_eq_false_2; [reflexivity|].
  intros [x Hx]. discriminate Hx.
Qed.

Lemma get_index_resolves w meta package_name index_name index_ :
  index_resolves meta index_name index_ ->
  _get_index_from_meta meta package_name index_name w = (w, Return index_).
Proof.
  destruct index_name as [|s|l]; cbn [index_resolves].
  - intros ->. reflexivity.
  - intros [[src ->] Hs]. now apply get_index_found.
  - intros [].
Qed.

Lemma get_index_keeps meta package_name index_name :
  keeps_dicts (_get_index_from_meta meta package_name index_name).
Proof.
  intros w w' o. destruct index_name as [|s|l].
  - now intros [= <- _].
  - destruct (sources meta !! s) as [src|] eqn:Hs.
    + rewrite (get_index_found _ _ _ _ _ Hs). now intros [= <- _].
    + rewrite (get_index_unknown _ _ _ _ Hs). now intros [= <- _].
  - now intros [= <- _].
Qed.

End Dicts.

(** ** Comparison, negation and tuples *)

Section Claims.

Context `{Semver}.


(** C2, amended: on a locked instance [negate_version] replaces the first
    character of the version by [!], so that [==X] becomes [!=X]; on an
    instance that is not locked it raises [InternalError] and the store is
    left as it was. *)
Theorem negate_version_spec w self r :
  objs w !! self = Some r ->
  (startswith (version r) "==" = true ->
   negate_version self w =
     (set_object self (set_version ("!=" ++ slice_from 2 (version r)) r) w, Return tt))
  /\ (startswith (version r) "==" = false ->
      negate_version self w = (w, Raise InternalError)).
Proof.
  intros Hr. split; intros Hl; unfold negate_version;
    rewrite (bind_Return _ _ _ _ _ (is_locked_run _ _ _ Hr)), Hl; [|reflexivity].
  cbn [negb]. rewrite (bind_Return _ _ _ _ _ (load_run _ _ _ Hr)).
  rewrite (update_run _ _ _ _ Hr). unfold set_object. do 4 f_equal.
  apply startswith_eqeq in Hl. rewrite Hl at 1. reflexivity.
Qed.

(** C9, amended: on an instance whose [index] is [None], [to_tuple] and
    [to_tuple_locked] do not return: when the instance is locked they read
    the missing index and raise [AttributeError]; when it is not locked,
    [locked_version] raises [InternalError] before the index is read. The
    store is left as it was. *)
Theorem to_tuple_index_None w self r :
  objs w !! self = Some r ->
  index r = None ->
  (startswith (version r) "==" = true ->
   to_tuple self w = (w, Raise AttributeError)
   /\ to_tuple_locked self w = (w, Raise AttributeError))
  /\ (startswith (version r) "==" = false ->
      to_tuple self w = (w, Raise InternalError)
      /\ to_tuple_locked self w = (w, Raise InternalError)).
Proof.
  intros Hr Hi. split; intros Hl; split.
  - unfold to_tuple.
    rewrite (bind_Return _ _ _ _ _ (load_run _ _ _ Hr)).
    rewrite (bind_Return _ _ _ _ _ (locked_version_locked _ _ _ Hr Hl)).
    now rewrite (bind_Raise _ _ _ _ _ (index_url_None _ _ _ Hr Hi)).
  - unfold to_tuple_locked.
    rewrite (bind_Return _ _ _ _ _ (load_run _ _ _ Hr)).
    rewrite (bind_Return _ _ _ _ _ (locked_version_locked _ _ _ Hr Hl)).
    now rewrite (bind_Raise _ _ _ _ _ (index_url_None _ _ _ Hr Hi)).
  - unfold to_tuple.
    rewrite (bind_Return _ _ _ _ _ (load_run _ _ _ Hr)).
    now rewrite (bind_Raise _ _ _ _ _ (locked_version_unlocked _ _ _ Hr Hl)).
  - unfold to_tuple_locked.
    rewrite (bind_Return _ _ _ _ _ (load_run _ _ _ Hr)).
    now rewrite (bind_Raise _ _ _ _ _ (locked_version_unlocked _ _ _ Hr Hl)).
Qed.


(** C6: on an instance locked at [==3.01.2] the [semantic_version]
    accessor returns the version 3.1.2, in every library whose strict
    parser rejects [3.01.2] and accepts [3.1.2], and whose [coerce] either
    rejects [3.01.2] with [ValueError] or reads it as 3.1.2. *)
Theorem semantic_version_leading_zero w self r e v :
  objs w !! self = Some r ->
  version r = "==3.01.2" ->
  Version_new "3.01.2" = Err e ->
  Version_coerce "3.01.2" = Err ValueError \/ Version_coerce "3.01.2" = Ok v ->
  Version_new "3.1.2" = Ok v ->
  exists w', semantic_version self w = (w', Return (Some v))
             /\ objs w' !! self = Some (set_semantic_version v r).
Proof.
  intros Hr Hv Hn Hc Hq.
  assert (Hl : startswith (version r) "==" = true) by now rewrite Hv.
  assert (Hs : slice_from 2 (version r) = "3.01.2") by now rewrite Hv.
  destruct Hc as [Hc|Hc].
  - eexists. split.
    + apply (semantic_version_retry w self r w [3; 1; 2]%Z w (Return v) Hr Hl).
      * rewrite Hs. now apply (parse_raises _ _ _ e).
      * now rewrite Hs.
      * now apply parse_strict.
    + cbn. apply lookup_insert_eq.
  - eexists. split.
    + eapply semantic_version_first; [exact Hr|exact Hl|].
      rewrite Hs. now apply (parse_coerced _ _ _ e).
    + cbn. apply lookup_insert_eq.
Qed.

End Claims.

(** ** Entries of Pipfile.lock and of Pipfile *)

Section Entries.

Context `{Semver}.

Lemma new_object_run w r :
  new_object r w =
    ({| objs := <[fresh (dom (objs w)) := r]> (objs w); dicts := dicts w;
        logger := logger w |}, Return (fresh (dom (objs w)))).
Proof. reflexivity. Qed.

Lemma truthy_VStr s : s ≠ "" -> truthy (VStr s) = true.
Proof.
  intros Hs. cbn. apply negb_true_iff. now apply String.eqb_neq.
Qed.

Lemma truthy_VList l : l ≠ [] -> truthy (VList l) = true.
Proof.
  intros Hl. cbn. apply negb_true_iff. now apply bool_decide_eq_false_2.
Qed.

Lemma init_run w name_ v develop_ index_ h markers_ :
  PackageVersion_init name_ (VStr v) develop_ index_ (VList h)
    (from_option VStr VNone markers_) w
  = new_object {| name := name_; version := v; develop := develop_; index := index_;
                  hashes := h; markers := markers_;
                  _semantic_version := None; _version_spec := None |} w.
Proof. now destruct markers_. Qed.

(** An entry without a true [version] or [hashes] is refused. *)
Lemma lock_entry_missing w package_name entry develop_ meta m :
  dicts w !! entry = Some m ->
  truthy (default VNone (m !! "version")) = false
  \/ truthy (default VNone (m !! "hashes")) = false ->
  from_pipfile_lock_entry package_name entry develop_ meta w =
    (set_dict (fresh (dom (dicts w))) m
       (add_log [DebugParsingLockEntry package_name m] w),
     Raise PipfileParseError).
Proof.
  intros Hd Hm. unfold from_pipfile_lock_entry.
  rewrite (bind_Return _ _ _ _ _ (dict_load_run _ _ _ Hd)).
  unfold bind at 1. unfold log at 1.
  change {| objs := objs w; dicts := dicts w;
            logger := DebugParsingLockEntry package_name m :: logger w |}
    with (add_log [DebugParsingLockEntry package_name m] w).
  set (wa := add_log _ w).
  assert (Hda : dicts wa !! entry = Some m) by exact Hd.
  rewrite (bind_Return _ _ _ _ _ (dict_copy_run _ _ _ Hda)).
  change (fresh (dom (dicts wa))) with (fresh (dom (dicts w))).
  set (e := fresh (dom (dicts w))).
  rewrite (bind_Return _ _ _ _ _ (missing_check_run _ _ _ (dicts_set_dict wa e m))).
  destruct Hm as [-> | ->]; cbn [negb orb]; [reflexivity|].
  now rewrite orb_true_r.
Qed.

(** A well-formed entry gives an instance. *)
Lemma lock_entry_ok w package_name entry develop_ meta m v h index_ markers_ :
  dicts w !! entry = Some m ->
  m !! "version" = Some (VStr v) -> v ≠ "" ->
  m !! "hashes" = Some (VList h) -> h ≠ [] ->
  index_resolves meta (default VNone (m !! "index")) index_ ->
  default VNone (m !! "markers") = from_option VStr VNone markers_ ->
  let rest := delete "markers" (delete "hashes" (delete "index" (delete "version" m))) in
  let instance := fresh (dom (objs w)) in
  from_pipfile_lock_entry package_name entry develop_ meta w =
    ({| objs := <[instance :=
                   {| name := package_name; version := v; develop := develop_;
                      index := index_; hashes := h; markers := markers_;
                      _semantic_version := None; _version_spec := None |}]> (objs w);
        dicts := <[fresh (dom (dicts w)) := rest]> (dicts w);
        logger := (if bool_decide (rest = ∅) then []
                   else [WarningUnusedEntries package_name rest])
                  ++ DebugParsingLockEntry package_name m :: logger w |},
     Return instance).
Proof.
  intros Hd Hv Hvne Hh Hhne Hi Hm rest instance.
  unfold from_pipfile_lock_entry.
  rewrite (bind_Return _ _ _ _ _ (dict_load_run _ _ _ Hd)).
  unfold bind at 1. unfold log at 1.
  change {| objs := objs w; dicts := dicts w;
            logger := DebugParsingLockEntry package_name m :: logger w |}
    with (add_log [DebugParsingLockEntry package_name m] w).
  set (wa := add_log _ w).
  assert (Hda : dicts wa !! entry = Some m) by exact Hd.
  rewrite (bind_Return _ _ _ _ _ (dict_copy_run _ _ _ Hda)).
  change (fresh (dom (dicts wa))) with (fresh (dom (dicts w))).
  set (e := fresh (dom (dicts w))).
  rewrite (bind_Return _ _ _ _ _ (missing_check_run _ _ _ (dicts_set_dict wa e m))).
  rewrite Hv, Hh. unfold default, from_option, id.
  rewrite (truthy_VStr _ Hvne), (truthy_VList _ Hhne). cbn [negb orb].
  rewrite (bind_Return _ _ _ _ _ (dict_pop_Some _ _ _ _ _ (dicts_set_dict wa e m) Hv)).
  rewrite set_dict_set_dict.
  rewrite (bind_Return _ _ _ _ _
             (dict_pop_default_run _ _ _ "index" VNone (dicts_set_dict wa e _))).
  rewrite set_dict_set_dict.
  rewrite (lookup_delete_ne m "version" "index") by done.
  rewrite (bind_Return _ _ _ _ _ (get_index_resolves _ _ _ _ _ Hi)).
  assert (Hh' : delete "index" (delete "version" m) !! "hashes" = Some (VList h)).
  { rewrite !lookup_delete_ne by done. exact Hh. }
  rewrite (bind_Return _ _ _ _ _ (dict_pop_Some _ _ _ _ _ (dicts_set_dict wa e _) Hh')).
  rewrite set_dict_set_dict.
  rewrite (bind_Return _ _ _ _ _
             (dict_pop_default_run _ _ _ "markers" VNone (dicts_set_dict wa e _))).
  rewrite set_dict_set_dict.
  rewrite !(lookup_delete_ne _ _ "markers") by done. rewrite Hm.
  fold rest.
  unfold bind at 1. rewrite init_run, new_object_run.
  set (wb := {| objs := _; dicts := dicts (set_dict e rest wa); logger := _ |}).
  assert (Hdb : dicts wb !! e = Some rest) by apply dicts_set_dict.
  rewrite (bind_Return _ _ _ _ _ (dict_truthy_run _ _ _ Hdb)).
  destruct (bool_decide (rest = ∅)); cbn [negb when].
  - reflexivity.
  - unfold bind at 1.
    rewrite (bind_Return _ _ _ _ _ (dict_load_run _ _ _ Hdb)).
    reflexivity.
Qed.


(** The index named by the entry is not registered. *)
Lemma lock_entry_unknown_index w package_name entry develop_ meta m s :
  dicts w !! entry = Some m ->
  truthy (default VNone (m !! "version")) = true ->
  truthy (default VNone (m !! "hashes")) = true ->
  m !! "index" = Some (VStr s) ->
  sources meta !! s = None ->
  from_pipfile_lock_entry package_name entry develop_ meta w =
    (set_dict (fresh (dom (dicts w))) (delete "index" (delete "version" m))
       (add_log [DebugParsingLockEntry package_name m] w),
     Raise PipfileParseError).
Proof.
  intros Hd Hv Hh Hi Hs. unfold from_pipfile_lock_entry.
  rewrite (bind_Return _ _ _ _ _ (dict_load_run _ _ _ Hd)).
  unfold bind at 1. unfold log at 1.
  change {| objs := objs w; dicts := dicts w;
            logger := DebugParsingLockEntry package_name m :: logger w |}
    with (add_log [DebugParsingLockEntry package_name m] w).
  set (wa := add_log _ w).
  assert (Hda : dicts wa !! entry = Some m) by exact Hd.
  rewrite (bind_Return _ _ _ _ _ (dict_copy_run _ _ _ Hda)).
  change (fresh (dom (dicts wa))) with (fresh (dom (dicts w))).
  set (e := fresh (dom (dicts w))).
  rewrite (bind_Return _ _ _ _ _ (missing_check_run _ _ _ (dicts_set_dict wa e m))).
  rewrite Hv, Hh. cbn [negb orb].
  destruct (m !! "version") as [ver|] eqn:Hver; [|discriminate Hv].
  rewrite (bind_Return _ _ _ _ _ (dict_pop_Some _ _ _ _ _ (dicts_set_dict wa e m) Hver)).
  rewrite set_dict_set_dict.
  rewrite (bind_Return _ _ _ _ _
             (dict_pop_default_run _ _ _ "index" VNone (dicts_set_dict wa e _))).
  rewrite set_dict_set_dict.
  rewrite (lookup_delete_ne m "version" "index") by done.
  rewrite Hi. cbn [default from_option id].
  now rewrite (bind_Raise _ _ _ _ _ (get_index_unknown _ _ _ _ Hs)).
Qed.

(** *** Which dictionaries an operation changes *)

Lemma keeps_touches {A} e (c : M A) : keeps_dicts c -> touches_only e c.
Proof. intros Hc w w' o Hrun d _. now rewrite (Hc _ _ _ Hrun). Qed.

Lemma keeps_bind {A B} (c : M A) (k : A -> M B) :
  keeps_dicts c -> (forall a, keeps_dicts (k a)) -> keeps_dicts (bind c k).
Proof.
  intros Hc Hk w w' o. unfold bind.
  destruct (c w) as [w1 [a|e|]] eqn:Hcw.
  - intros Hrun. rewrite (Hk _ _ _ _ Hrun). exact (Hc _ _ _ Hcw).
  - intros [= <- _]. exact (Hc _ _ _ Hcw).
  - intros [= <- _]. exact (Hc _ _ _ Hcw).
Qed.

Lemma touches_bind {A B} e (c : M A) (k : A -> M B) :
  touches_only e c -> (forall a, touches_only e (k a)) -> touches_only e (bind c k).
Proof.
  intros Hc Hk w w' o. unfold bind.
  destruct (c w) as [w1 [a|x|]] eqn:Hcw.
  - intros Hrun d Hd. rewrite (Hk _ _ _ _ Hrun d Hd). exact (Hc _ _ _ Hcw d Hd).
  - intros [= <- _]. exact (Hc _ _ _ Hcw).
  - intros [= <- _]. exact (Hc _ _ _ Hcw).
Qed.

Lemma keeps_ret {A} (a : A) : keeps_dicts (ret a).
Proof. now intros w w' o [= <- _]. Qed.

Lemma keeps_raise {A} e : keeps_dicts (@raise _ A e).
Proof. now intros w w' o [= <- _]. Qed.

Lemma keeps_stuck {A} : keeps_dicts (@stuck _ A).
Proof. now intros w w' o [= <- _]. Qed.

Lemma keeps_log r : keeps_dicts (log r).
Proof. now intros w w' o [= <- _]. Qed.

Lemma keeps_new_object r : keeps_dicts (new_object r).
Proof. now intros w w' o [= <- _]. Qed.

Lemma keeps_dict_load d : keeps_dicts (dict_load d).
Proof.
  intros w w' o. unfold dict_load.
  destruct (dicts w !! d); now intros [= <- _].
Qed.

Lemma keeps_when b c : keeps_dicts c -> keeps_dicts (when b c).
Proof. destruct b; [trivial|]. intros _. apply keeps_ret. Qed.

Lemma keeps_init name_ version_ develop_ index_ hashes_ markers_ :
  keeps_dicts (PackageVersion_init name_ version_ develop_ index_ hashes_ markers_).
Proof.
  unfold PackageVersion_init.
  destruct version_, hashes_, markers_;
    first [apply keeps_stuck | apply keeps_new_object].
Qed.

Lemma keeps_dict_get d key : keeps_dicts (dict_get d key).
Proof.
  apply keeps_bind; [apply keeps_dict_load | intros; apply keeps_ret].
Qed.

Lemma keeps_dict_truthy d : keeps_dicts (dict_truthy d).
Proof.
  apply keeps_bind; [apply keeps_dict_load | intros; apply keeps_ret].
Qed.

Lemma keeps_any {A} (p : A -> M bool) xs :
  (forall x, keeps_dicts (p x)) -> keeps_dicts (any p xs).
Proof.
  intros Hp. induction xs as [|x xs IH]; cbn [any].
  - apply keeps_ret.
  - apply keeps_bind; [apply Hp|]. intros [|]; [apply keeps_ret | exact IH].
Qed.

Lemma touches_dict_store e m : touches_only e (dict_store e m).
Proof.
  intros w w' o [= <- _] d Hd. cbn. now rewrite lookup_insert_ne.
Qed.

Lemma touches_dict_pop e key : touches_only e (dict_pop e key).
Proof.
  apply touches_bind; [apply keeps_touches, keeps_dict_load|].
  intros m. destruct (m !! key).
  - apply touches_bind; [apply touches_dict_store|].
    intros _. apply keeps_touches, keeps_ret.
  - apply keeps_touches, keeps_raise.
Qed.

Lemma touches_dict_pop_default e key dflt : touches_only e (dict_pop_default e key dflt).
Proof.
  apply touches_bind; [apply keeps_touches, keeps_dict_load|].
  intros m. destruct (m !! key).
  - apply touches_bind; [apply touches_dict_store|].
    intros _. apply keeps_touches, keeps_ret.
  - apply keeps_touches, keeps_ret.
Qed.

(** [from_pipfile_lock_entry] works on a copy: the dictionary it was given
    is the same afterwards, however the call ends. *)
Lemma lock_entry_frame w package_name entry develop_ meta w' o :
  from_pipfile_lock_entry package_name entry develop_ meta w = (w', o) ->
  dicts w' !! entry = dicts w !! entry.
Proof.
  unfold from_pipfile_lock_entry.
  destruct (dicts w !! entry) as [m|] eqn:Hd.
  - rewrite (bind_Return _ _ _ _ _ (dict_load_run _ _ _ Hd)).
    unfold bind at 1. unfold log at 1.
    set (wa := {| objs := objs w; dicts := dicts w; logger := _ |}).
    assert (Hda : dicts wa !! entry = Some m) by exact Hd.
    rewrite (bind_Return _ _ _ _ _ (dict_copy_run _ _ _ Hda)).
    change (fresh (dom (dicts wa))) with (fresh (dom (dicts w))).
    set (e := fresh (dom (dicts w))).
    intros Hrun.
    assert (Hne : entry ≠ e) by exact (fresh_dict_ne _ _ _ Hd).
    transitivity (dicts (set_dict e m wa) !! entry).
    + revert Hrun. generalize (set_dict e m wa). intros wb Hrun.
      refine (_ wb w' o Hrun entry Hne).
      apply touches_bind.
      { apply keeps_touches, keeps_any. intros conf.
        apply keeps_bind; [apply keeps_dict_get | intros; apply keeps_ret]. }
      intros [|]; [apply keeps_touches, keeps_raise|].
      apply touches_bind; [apply touches_dict_pop | intros version_].
      apply touches_bind; [apply touches_dict_pop_default | intros index_name].
      apply touches_bind; [apply keeps_touches, get_index_keeps | intros index_].
      apply touches_bind; [apply touches_dict_pop | intros hashes_].
      apply touches_bind; [apply touches_dict_pop_default | intros markers_].
      apply touches_bind; [apply keeps_touches, keeps_init | intros instance].
      apply touches_bind; [apply keeps_touches, keeps_dict_truthy | intros unused].
      apply touches_bind; [|intros; apply keeps_touches, keeps_ret].
      apply keeps_touches, keeps_when, keeps_bind; [apply keeps_dict_load|].
      intros; apply keeps_log.
    + cbn. now rewrite lookup_insert_ne.
  - unfold bind at 1. unfold dict_load. rewrite Hd. now intros [= <- _].
Qed.


(** *** Entries of a Pipfile *)

Lemma pipfile_entry_vcs w package_name entry develop_ meta m :
  dicts w !! entry = Some m ->
  is_Some (m !! "git") \/ is_Some (m !! "hg") \/ is_Some (m !! "bzr")
  \/ is_Some (m !! "svn") ->
  from_pipfile_entry package_name (EntryDict entry) develop_ meta w =
    (add_log [DebugParsingPipfileEntry package_name (inr m)] w,
     Raise UnsupportedConfiguration).
Proof.
  intros Hd Hvcs. unfold from_pipfile_entry.
  rewrite (bind_Return _ _ _ _ _ (dict_load_run _ _ _ Hd)).
  unfold bind at 1. unfold log at 1.
  change {| objs := objs w; dicts := dicts w;
            logger := DebugParsingPipfileEntry package_name (inr m) :: logger w |}
    with (add_log [DebugParsingPipfileEntry package_name (inr m)] w).
  set (wa := add_log _ w).
  assert (Hda : dicts wa !! entry = Some m) by exact Hd.
  rewrite (bind_Return _ _ _ _ _ (vcs_check_run _ _ _ Hda)).
  assert (bool_decide (is_Some (m !! "git")) || bool_decide (is_Some (m !! "hg"))
          || bool_decide (is_Some (m !! "bzr")) || bool_decide (is_Some (m !! "svn"))
          = true) as ->; [|reflexivity].
  rewrite !orb_true_iff, !bool_decide_eq_true. tauto.
Qed.

Lemma no_vcs (m : dict) :
  m !! "git" = None -> m !! "hg" = None -> m !! "bzr" = None -> m !! "svn" = None ->
  bool_decide (is_Some (m !! "git")) || bool_decide (is_Some (m !! "hg"))
  || bool_decide (is_Some (m !! "bzr")) || bool_decide (is_Some (m !! "svn")) = false.
Proof.
  intros -> -> -> ->. rewrite bool_decide_eq_false_2; [reflexivity|].
  intros [x Hx]. discriminate Hx.
Qed.

Lemma pipfile_entry_no_version w package_name entry develop_ meta m :
  dicts w !! entry = Some m ->
  m !! "git" = None -> m !! "hg" = None -> m !! "bzr" = None -> m !! "svn" = None ->
  m !! "version" = None ->
  from_pipfile_entry package_name (EntryDict entry) develop_ meta w =
    (add_log [DebugParsingPipfileEntry package_name (inr m)] w, Raise KeyError).
Proof.
  intros Hd Hgit Hhg Hbzr Hsvn Hv. unfold from_pipfile_entry.
  rewrite (bind_Return _ _ _ _ _ (dict_load_run _ _ _ Hd)).
  unfold bind at 1. unfold log at 1.
  change {| objs := objs w; dicts := dicts w;
            logger := DebugParsingPipfileEntry package_name (inr m) :: logger w |}
    with (add_log [DebugParsingPipfileEntry package_name (inr m)] w).
  set (wa := add_log _ w).
  assert (Hda : dicts wa !! entry = Some m) by exact Hd.
  rewrite (bind_Return _ _ _ _ _ (vcs_check_run _ _ _ Hda)).
  rewrite (no_vcs m Hgit Hhg Hbzr Hsvn).
  now rewrite (bind_Raise _ _ _ _ _ (dict_pop_None _ _ _ _ Hda Hv)).
Qed.

(** Once [version] was popped, the entry has lost [version] and [index],
    however the call ends. *)
Lemma pipfile_entry_popped w package_name entry develop_ meta m v :
  dicts w !! entry = Some m ->
  m !! "git" = None -> m !! "hg" = None -> m !! "bzr" = None -> m !! "svn" = None ->
  m !! "version" = Some v ->
  dicts (from_pipfile_entry package_name (EntryDict entry) develop_ meta w).1
  = <[entry := delete "index" (delete "version" m)]> (dicts w).
Proof.
  intros Hd Hgit Hhg Hbzr Hsvn Hv. unfold from_pipfile_entry.
  rewrite (bind_Return _ _ _ _ _ (dict_load_run _ _ _ Hd)).
  unfold bind at 1. unfold log at 1.
  set (wa := {| objs := objs w; dicts := dicts w; logger := _ |}).
  assert (Hda : dicts wa !! entry = Some m) by exact Hd.
  rewrite (bind_Return _ _ _ _ _ (vcs_check_run _ _ _ Hda)).
  rewrite (no_vcs m Hgit Hhg Hbzr Hsvn).
  rewrite (bind_Return _ _ _ _ _ (dict_pop_Some _ _ _ _ _ Hda Hv)).
  rewrite (bind_Return _ _ _ _ _
             (dict_pop_default_run _ _ _ "index" VNone (dicts_set_dict wa entry _))).
  rewrite set_dict_set_dict.
  match goal with
  | |- dicts (?c ?wb).1 = _ =>
      destruct (c wb) as [w' o] eqn:Hrun;
      assert (Hk : keeps_dicts c); [|exact (Hk _ _ _ Hrun)]
  end.
  apply keeps_bind; [apply keeps_dict_truthy | intros rest].
  apply keeps_bind.
  { apply keeps_when, keeps_bind; [apply keeps_dict_load|]. intros; apply keeps_log. }
  intros _. apply keeps_bind; [apply get_index_keeps | intros index_].
  apply keeps_init.
Qed.

(** *** Serialising a locked instance *)

Lemma to_pipfile_lock_run w self r :
  objs w !! self = Some r ->
  startswith (version r) "==" = true ->
  to_pipfile_lock self w =
    (add_log [DebugGeneratingLockEntry (name r)] w, Return {[ name r := lock_entry r ]}).
Proof.
  intros Hr Hl. unfold to_pipfile_lock.
  rewrite (bind_Return _ _ _ _ _ (load_run _ _ _ Hr)).
  unfold bind at 1. unfold log at 1.
  change {| objs := objs w; dicts := dicts w;
            logger := DebugGeneratingLockEntry (name r) :: logger w |}
    with (add_log [DebugGeneratingLockEntry (name r)] w).
  set (wa := add_log _ w).
  assert (Hra : objs wa !! self = Some r) by exact Hr.
  now rewrite (bind_Return _ _ _ _ _ (is_locked_run _ _ _ Hra)), Hl.
Qed.

Lemma lock_entry_version r : lock_entry r !! "version" = Some (VStr (version r)).
Proof.
  unfold lock_entry.
  destruct (index r), (opt_truthy (markers r));
    now rewrite ?(lookup_insert_ne _ "index"), ?(lookup_insert_ne _ "markers"),
      (lookup_insert_ne _ "hashes"), lookup_insert_eq by done.
Qed.

Lemma lock_entry_hashes r : lock_entry r !! "hashes" = Some (VList (hashes r)).
Proof.
  unfold lock_entry.
  destruct (index r), (opt_truthy (markers r));
    now rewrite ?(lookup_insert_ne _ "index"), ?(lookup_insert_ne _ "markers"),
      lookup_insert_eq by done.
Qed.

Lemma lock_entry_index r :
  default VNone (lock_entry r !! "index")
  = from_option (fun src => VStr (Source.name src)) VNone (index r).
Proof.
  unfold lock_entry. destruct (index r) as [src|].
  - now rewrite lookup_insert_eq.
  - destruct (opt_truthy (markers r));
      now rewrite ?(lookup_insert_ne _ "markers"), (lookup_insert_ne _ "hashes"),
        (lookup_insert_ne _ "version"), lookup_empty by done.
Qed.

Lemma lock_entry_markers r :
  markers r ≠ Some "" ->
  default VNone (lock_entry r !! "markers") = from_option VStr VNone (markers r).
Proof.
  intros Hm. unfold lock_entry. destruct (markers r) as [s|].
  - assert (opt_truthy (Some s) = true) as ->.
    { cbn. apply negb_true_iff, String.eqb_neq. congruence. }
    cbn [from_option].
    destruct (index r);
      now rewrite ?(lookup_insert_ne _ "index"), lookup_insert_eq by done.
  - cbn [opt_truthy from_option].
    destruct (index r);
      now rewrite ?(lookup_insert_ne _ "index"), (lookup_insert_ne _ "hashes"),
        (lookup_insert_ne _ "version"), lookup_empty by done.
Qed.


(** C3, amended: for every locked instance whose [hashes] are not empty,
    whose [markers] are [None] or a non-empty string, and whose index, when
    it has one, is the source the registry holds under the name of that
    index, the round trip through [to_pipfile_lock] and
    [from_pipfile_lock_entry] returns a new instance that has the fields
    of the original and nothing memoised; the original is untouched. *)
Theorem lock_roundtrip_spec w self r meta :
  objs w !! self = Some r ->
  startswith (version r) "==" = true ->
  hashes r ≠ [] ->
  markers r ≠ Some "" ->
  (forall src, index r = Some src -> sources meta !! Source.name src = Some src) ->
  let w' := (lock_roundtrip self meta w).1 in
  let copy := fresh (dom (objs w)) in
  (lock_roundtrip self meta w).2 = Return copy
  /\ objs w' !! copy = Some (without_caches r)
  /\ objs w' !! self = Some r.
Proof.
  intros Hr Hl Hh Hm Hi.
  assert (Hne : self ≠ fresh (dom (objs w))).
  { intros Heq. apply (is_fresh (dom (objs w))). rewrite <- Heq.
    apply elem_of_dom. eauto. }
  assert (Hv : version r ≠ "").
  { intros Hv. rewrite Hv in Hl. discriminate Hl. }
  assert (Hidx : index_resolves meta (default VNone (lock_entry r !! "index")) (index r)).
  { rewrite lock_entry_index. destruct (index r) as [src|] eqn:Hs; cbn; eauto. }
  assert (Hrun : exists w', lock_roundtrip self meta w = (w', Return (fresh (dom (objs w))))
                 /\ objs w' = <[fresh (dom (objs w)) := without_caches r]> (objs w)).
  { unfold lock_roundtrip.
    rewrite (bind_Return _ _ _ _ _ (load_run _ _ _ Hr)).
    rewrite (bind_Return _ _ _ _ _ (to_pipfile_lock_run _ _ _ Hr Hl)).
    rewrite lookup_singleton_eq.
    unfold bind at 1. unfold dict_new.
    set (wa := add_log _ w). set (d := fresh (dom (dicts wa))).
    change {| objs := objs wa; dicts := <[d := lock_entry r]> (dicts wa);
              logger := logger wa |} with (set_dict d (lock_entry r) wa).
    rewrite (lock_entry_ok _ (name r) d (develop r) meta (lock_entry r)
               (version r) (hashes r) (index r) (markers r)
               (dicts_set_dict wa d _) (lock_entry_version r) Hv
               (lock_entry_hashes r) Hh Hidx (lock_entry_markers r Hm)).
    eexists. split; reflexivity. }
  destruct Hrun as (w1 & -> & Ho). cbn [fst snd]. rewrite Ho.
  split; [reflexivity|]. split.
  - apply lookup_insert_eq.
  - now rewrite lookup_insert_ne.
Qed.

(** C7, amended: [from_pipfile_lock_entry] raises [PipfileParseError] for
    every entry in which [version] or [hashes] is missing or has an empty
    value. When both are present and not empty it returns a new instance
    provided the index, when the entry names one, is in the registry;
    [index] and [markers] may be absent. When the named index is not in the
    registry it raises [PipfileParseError] as well. *)
Theorem lock_entry_spec w package_name entry develop_ meta m :
  dicts w !! entry = Some m ->
  let run := from_pipfile_lock_entry package_name entry develop_ meta w in
  ((forall x, m !! "version" = Some x -> truthy x = false)
   \/ (forall x, m !! "hashes" = Some x -> truthy x = false) ->
   run.2 = Raise PipfileParseError)
  /\ (forall v h index_ markers_,
        m !! "version" = Some (VStr v) -> v ≠ "" ->
        m !! "hashes" = Some (VList h) -> h ≠ [] ->
        index_resolves meta (default VNone (m !! "index")) index_ ->
        default VNone (m !! "markers") = from_option VStr VNone markers_ ->
        run.2 = Return (fresh (dom (objs w)))
        /\ objs run.1 !! fresh (dom (objs w)) =
             Some {| name := package_name; version := v; develop := develop_;
                     index := index_; hashes := h; markers := markers_;
                     _semantic_version := None; _version_spec := None |})
  /\ (forall v h s,
        m !! "version" = Some (VStr v) -> v ≠ "" ->
        m !! "hashes" = Some (VList h) -> h ≠ [] ->
        m !! "index" = Some (VStr s) -> sources meta !! s = None ->
        run.2 = Raise PipfileParseError).
Proof.
  intros Hd run. split; [|split].
  - intros Hm. unfold run. rewrite (lock_entry_missing _ _ _ _ _ m Hd); [reflexivity|].
    destruct Hm as [Hm|Hm]; [left|right].
    + destruct (m !! "version") as [x|]; [now apply Hm | reflexivity].
    + destruct (m !! "hashes") as [x|]; [now apply Hm | reflexivity].
  - intros v h index_ markers_ Hv Hvne Hh Hhne Hi Hm. unfold run.
    rewrite (lock_entry_ok _ package_name entry develop_ meta m v h index_ markers_
               Hd Hv Hvne Hh Hhne Hi Hm).
    cbn [fst snd objs]. split; [reflexivity|]. apply lookup_insert_eq.
  - intros v h s Hv Hvne Hh Hhne Hi Hs. unfold run.
    rewrite (lock_entry_unknown_index _ package_name entry develop_ meta m s Hd);
      [reflexivity| | |exact Hi|exact Hs].
    + rewrite Hv. now apply truthy_VStr.
    + rewrite Hh. now apply truthy_VList.
Qed.

(** C8, amended: [from_pipfile_entry] called with a dictionary that has a
    [version] key and none of the keys [git], [hg], [bzr], [svn] removes
    [version] and [index] from that dictionary, however the call ends; with
    one of the four keys, or without [version], it raises and the
    dictionary is as it was. [from_pipfile_lock_entry] copies the entry
    first: the dictionary it was given is as it was, however the call
    ends. *)
Theorem entry_mutation_spec w package_name entry develop_ meta m :
  dicts w !! entry = Some m ->
  let has_vcs := is_Some (m !! "git") \/ is_Some (m !! "hg")
                 \/ is_Some (m !! "bzr") \/ is_Some (m !! "svn") in
  let pipfile := from_pipfile_entry package_name (EntryDict entry) develop_ meta w in
  let locked := from_pipfile_lock_entry package_name entry develop_ meta w in
  (~ has_vcs -> is_Some (m !! "version") ->
   dicts pipfile.1 !! entry = Some (delete "index" (delete "version" m)))
  /\ (has_vcs ->
      pipfile.2 = Raise UnsupportedConfiguration /\ dicts pipfile.1 !! entry = Some m)
  /\ (~ has_vcs -> m !! "version" = None ->
      pipfile.2 = Raise KeyError /\ dicts pipfile.1 !! entry = Some m)
  /\ dicts locked.1 !! entry = Some m.
Proof.
  intros Hd has_vcs pipfile locked.
  assert (Hno : ~ has_vcs ->
                m !! "git" = None /\ m !! "hg" = None /\ m !! "bzr" = None
                /\ m !! "svn" = None).
  { unfold has_vcs. intros Hn.
    repeat split; apply eq_None_not_Some; tauto. }
  split; [|split; [|split]].
  - intros Hn [v Hv]. destruct (Hno Hn) as (Hgit & Hhg & Hbzr & Hsvn).
    unfold pipfile.
    rewrite (pipfile_entry_popped _ _ _ _ _ m v Hd Hgit Hhg Hbzr Hsvn Hv).
    apply lookup_insert_eq.
  - intros Hvcs. unfold pipfile.
    rewrite (pipfile_entry_vcs _ _ _ _ _ m Hd Hvcs). now split.
  - intros Hn Hv. destruct (Hno Hn) as (Hgit & Hhg & Hbzr & Hsvn).
    unfold pipfile.
    rewrite (pipfile_entry_no_version _ _ _ _ _ m Hd Hgit Hhg Hbzr Hsvn Hv).
    now split.
  - unfold locked.
    destruct (from_pipfile_lock_entry package_name entry develop_ meta w)
      as [w' o] eqn:Hrun.
    cbn [fst]. rewrite (lock_entry_frame _ _ _ _ _ _ _ Hrun). exact Hd.
Qed.

(** C10: [from_pipfile_entry] called with a dictionary that has none of the
    keys [git], [hg], [bzr], [svn] and no [version] key raises [KeyError],
    not [PipfileParseError]; the dictionary is as it was. *)
Theorem pipfile_entry_without_version w package_name entry develop_ meta m :
  dicts w !! entry = Some m ->
  m !! "git" = None -> m !! "hg" = None -> m !! "bzr" = None -> m !! "svn" = None ->
  m !! "version" = None ->
  (from_pipfile_entry package_name (EntryDict entry) develop_ meta w).2 = Raise KeyError
  /\ (from_pipfile_entry package_name (EntryDict entry) develop_ meta w).2
     ≠ Raise PipfileParseError
  /\ dicts (from_pipfile_entry package_name (EntryDict entry) develop_ meta w).1 !! entry
     = Some m.
Proof.
  intros Hd Hgit Hhg Hbzr Hsvn Hv.
  rewrite (pipfile_entry_no_version _ _ _ _ _ m Hd Hgit Hhg Hbzr Hsvn Hv).
  cbn [fst snd]. split; [reflexivity|]. split; [discriminate|exact Hd].
Qed.

End Entries.

(** ** The properties on the sample data, with the reference library *)

Section Samples.

#[local] Existing Instance PySemver_instance.

Import Examples.

Example split_dots : split "." "3.01.2" = ["3"; "01"; "2"].
Proof. reflexivity. Qed.

Example int_leading_zero : int "01" = Ok 1%Z.
Proof. reflexivity. Qed.

Example int_letters : int "abc" = Err ValueError.
Proof. reflexivity. Qed.

Example join_dots : join "." (map str [3; 1; 2]%Z) = "3.1.2".
Proof. reflexivity. Qed.

Example coerce_release_candidate :
  Version_coerce "1.0.0rc1"
  = Ok {| PySemver.major := 1; PySemver.minor := 0; PySemver.patch := 0;
          PySemver.prerelease := ["rc1"]; PySemver.build := [] |}.
Proof. reflexivity. Qed.

(** [negate_version] on [==1.2.3] gives [!=1.2.3], which is not [!1.2.3]. *)
Lemma negate_version_counterexample :
  version <$> objs (negate_version 1 (world [locked_1_2_3] [])).1 !! 1%positive
  = Some "!=1.2.3"
  /\ "!=1.2.3" ≠ "!1.2.3".
Proof. split; [vm_compute; reflexivity | discriminate]. Qed.

Lemma negate_version_spec_witness :
  negate_version 1 (world [locked_1_2_3] [])
  = (set_object 1 (set_version "!=1.2.3" locked_1_2_3) (world [locked_1_2_3] []),
     Return tt)
  /\ negate_version 1 (world [unlocked] []) = (world [unlocked] [], Raise InternalError).
Proof.
  split.
  - apply (proj1 (negate_version_spec (world [locked_1_2_3] []) 1%positive
                    locked_1_2_3 eq_refl)).
    reflexivity.
  - apply (proj2 (negate_version_spec (world [unlocked] []) 1%positive
                    unlocked eq_refl)).
    reflexivity.
Defined.

(** A locked instance without hashes is serialised, and the entry is
    refused when it is parsed again. *)
Lemma lock_roundtrip_counterexample :
  startswith (version v1) "==" = true
  /\ (lock_roundtrip 1 meta_pypi (world [v1] [])).2 = Raise PipfileParseError.
Proof. split; vm_compute; reflexivity. Qed.

Lemma lock_roundtrip_spec_witness :
  (lock_roundtrip 1 meta_pypi (world [complete] [])).2 = Return 2%positive
  /\ objs (lock_roundtrip 1 meta_pypi (world [complete] [])).1 !! 2%positive
     = Some (without_caches complete)
  /\ objs (lock_roundtrip 1 meta_pypi (world [complete] [])).1 !! 1%positive
     = Some complete.
Proof.
  apply (lock_roundtrip_spec (world [complete] []) 1%positive complete meta_pypi).
  - reflexivity.
  - reflexivity.
  - discriminate.
  - discriminate.
  - intros src [= <-]. reflexivity.
Defined.



Lemma semantic_version_leading_zero_witness :
  exists w',
    semantic_version 1 (world [leading_zero] [])
    = (w', Return (Some {| PySemver.major := 3; PySemver.minor := 1; PySemver.patch := 2;
                           PySemver.prerelease := []; PySemver.build := [] |}))
    /\ objs w' !! 1%positive
       = Some (set_semantic_version
                 {| PySemver.major := 3; PySemver.minor := 1; PySemver.patch := 2;
                    PySemver.prerelease := []; PySemver.build := [] |} leading_zero).
Proof.
  apply (semantic_version_leading_zero (world [leading_zero] []) 1%positive
           leading_zero ValueError).
  - reflexivity.
  - reflexivity.
  - reflexivity.
  - left. reflexivity.
  - reflexivity.
Defined.

(** Both [version] and [hashes] are there and not empty, and the entry is
    refused all the same: its index is not in the registry. *)
Lemma lock_entry_counterexample :
  entry_private !! "version" = Some (VStr "==1.0.0")
  /\ entry_private !! "hashes" = Some (VList ["sha256:aa"])
  /\ (from_pipfile_lock_entry "pkg" 1 false meta_pypi (world [] [entry_private])).2
     = Raise PipfileParseError.
Proof. repeat split; vm_compute; reflexivity. Qed.

Lemma lock_entry_spec_witness :
  (from_pipfile_lock_entry "pkg" 1 false meta_pypi (world [] [entry_no_hashes])).2
  = Raise PipfileParseError
  /\ (from_pipfile_lock_entry "pkg" 1 false meta_pypi (world [] [entry_pypi])).2
     = Return 1%positive
  /\ objs (from_pipfile_lock_entry "pkg" 1 false meta_pypi (world [] [entry_pypi])).1
       !! 1%positive
     = Some from_pypi.
Proof.
  split.
  - apply (proj1 (lock_entry_spec (world [] [entry_no_hashes]) "pkg" 1%positive false
                    meta_pypi entry_no_hashes eq_refl)).
    right. intros x Hx. discriminate Hx.
  - apply (proj1 (proj2 (lock_entry_spec (world [] [entry_pypi]) "pkg" 1%positive false
                           meta_pypi entry_pypi eq_refl))
             "==1.0.0" ["sha256:aa"] (Some pypi) None).
    + reflexivity.
    + discriminate.
    + reflexivity.
    + discriminate.
    + split; [eauto | reflexivity].
    + reflexivity.
Defined.

(** An entry that names a version control system is refused before
    anything is popped: [version] is still there. *)
Lemma entry_mutation_counterexample :
  (from_pipfile_entry "pkg" (EntryDict 1) false meta_pypi (world [] [entry_git])).2
  = Raise UnsupportedConfiguration
  /\ dicts (from_pipfile_entry "pkg" (EntryDict 1) false meta_pypi
              (world [] [entry_git])).1 !! 1%positive
     = Some entry_git
  /\ entry_git !! "version" = Some (VStr "*").
Proof. repeat split; vm_compute; reflexivity. Qed.

Lemma entry_mutation_spec_witness :
  dicts (from_pipfile_entry "pkg" (EntryDict 1) false meta_pypi
           (world [] [entry_plain])).1 !! 1%positive
  = Some (delete "index" (delete "version" entry_plain))
  /\ dicts (from_pipfile_lock_entry "pkg" 1 false meta_pypi
              (world [] [entry_pypi])).1 !! 1%positive
     = Some entry_pypi.
Proof.
  split.
  - apply (proj1 (entry_mutation_spec (world [] [entry_plain]) "pkg" 1%positive false
                    meta_pypi entry_plain eq_refl)).
    + intros [[x Hx]|[[x Hx]|[[x Hx]|[x Hx]]]]; discriminate Hx.
    + eexists. reflexivity.
  - apply (proj2 (proj2 (proj2
             (entry_mutation_spec (world [] [entry_pypi]) "pkg" 1%positive false
                meta_pypi entry_pypi eq_refl)))).
Defined.

(** Without an index, [to_tuple] on an instance that is not locked raises
    [InternalError], not [AttributeError]. *)
Lemma to_tuple_index_None_counterexample :
  index unlocked = None
  /\ to_tuple 1 (world [unlocked] []) = (world [unlocked] [], Raise InternalError)
  /\ to_tuple_locked 1 (world [unlocked] []) = (world [unlocked] [], Raise InternalError).
Proof. repeat split; vm_compute; reflexivity. Qed.

Lemma to_tuple_index_None_witness :
  to_tuple 1 (world [locked_1_2_3] []) = (world [locked_1_2_3] [], Raise AttributeError)
  /\ to_tuple_locked 1 (world [unlocked] []) = (world [unlocked] [], Raise InternalError).
Proof.
  split.
  - apply (proj1 (to_tuple_index_None (world [locked_1_2_3] []) 1%positive
                    locked_1_2_3 eq_refl eq_refl)).
    reflexivity.
  - apply (proj2 (to_tuple_index_None (world [unlocked] []) 1%positive
                    unlocked eq_refl eq_refl)).
    reflexivity.
Defined.

Lemma pipfile_entry_without_version_witness :
  (from_pipfile_entry "pkg" (EntryDict 1) false meta_pypi
     (world [] [entry_markers_only])).2 = Raise KeyError.
Proof.
  apply (pipfile_entry_without_version (world [] [entry_markers_only]) "pkg" 1%positive
           false meta_pypi entry_markers_only); reflexivity.
Defined.

End Samples.

(** ** Further properties of the instance methods *)

Section Methods.

Context `{Semver}.

Lemma negate_locked w self r :
  objs w !! self = Some r ->
  startswith (version r) "==" = true ->
  negate_version self w
  = (set_object self (set_version ("!" ++ slice_from 1 (version r)) r) w, Return tt).
Proof.
  intros Hr Hl. unfold negate_version.
  rewrite (bind_Return _ _ _ _ _ (is_locked_run _ _ _ Hr)), Hl. cbn [negb].
  rewrite (bind_Return _ _ _ _ _ (load_run _ _ _ Hr)).
  now rewrite (update_run _ _ _ _ Hr).
Qed.

Lemma semantic_version_not_locked w self r :
  objs w !! self = Some r ->
  startswith (version r) "==" = false ->
  semantic_version self w = (w, Raise InternalError).
Proof.
  intros Hr Hl. unfold semantic_version.
  rewrite (bind_Return _ _ _ _ _ (load_run _ _ _ Hr)).
  destruct (negb (bool_decide (is_Some (_semantic_version r)))); cbn [when].
  - unfold bind at 1. unfold bind at 1.
    rewrite (is_locked_run _ _ _ Hr), Hl. reflexivity.
  - unfold bind at 1. unfold ret at 1. unfold bind at 1. unfold try_except.
    rewrite (bind_Raise _ _ _ _ _ (locked_version_unlocked _ _ _ Hr Hl)).
    reflexivity.
Qed.

Lemma to_pipfile_lock_not_locked w self r :
  objs w !! self = Some r ->
  startswith (version r) "==" = false ->
  to_pipfile_lock self w
  = (add_log [DebugGeneratingLockEntry (name r)] w, Raise InternalError).
Proof.
  intros Hr Hl. unfold to_pipfile_lock.
  rewrite (bind_Return _ _ _ _ _ (load_run _ _ _ Hr)).
  unfold bind at 1. unfold log at 1.
  change {| objs := objs w; dicts := dicts w;
            logger := DebugGeneratingLockEntry (name r) :: logger w |}
    with (add_log [DebugGeneratingLockEntry (name r)] w).
  set (wa := add_log _ w).
  assert (Hra : objs wa !! self = Some r) by exact Hr.
  now rewrite (bind_Return _ _ _ _ _ (is_locked_run _ _ _ Hra)), Hl.
Qed.

(** [locked_version] returns the text after [==] and nothing else: the
    version is [==] followed by what it returns. An instance whose version
    does not start with [==] gets [InternalError]. The store is never
    changed. *)
Theorem locked_version_spec w self r :
  objs w !! self = Some r ->
  (forall lv, version r = "==" ++ lv <-> locked_version self w = (w, Return lv))
  /\ (startswith (version r) "==" = false <->
      locked_version self w = (w, Raise InternalError))
  /\ (locked_version self w).1 = w.
Proof.
  intros Hr. destruct (startswith (version r) "==") eqn:Hl.
  - rewrite (locked_version_locked _ _ _ Hr Hl).
    apply startswith_eqeq in Hl. split; [|split; [|reflexivity]].
    + intros lv. split.
      * intros Hv. rewrite Hv. reflexivity.
      * intros [= <-]. exact Hl.
    + split; discriminate.
  - rewrite (locked_version_unlocked _ _ _ Hr Hl).
    split; [|split; [|reflexivity]].
    + intros lv. split; [|discriminate].
      intros Hv. rewrite Hv in Hl. discriminate Hl.
    + split; reflexivity.
Qed.

(** After [negate_version] the instance is not locked any more: negating
    it again, asking for its locked or semantic version, and writing its
    lock entry all raise [InternalError]. *)
Theorem negate_version_unlocks w self r :
  objs w !! self = Some r ->
  startswith (version r) "==" = true ->
  let w' := (negate_version self w).1 in
  is_locked self w' = (w', Return false)
  /\ negate_version self w' = (w', Raise InternalError)
  /\ locked_version self w' = (w', Raise InternalError)
  /\ semantic_version self w' = (w', Raise InternalError)
  /\ (to_pipfile_lock self w').2 = Raise InternalError.
Proof.
  intros Hr Hl. rewrite (negate_locked _ _ _ Hr Hl). cbn [fst].
  set (r' := set_version _ r). set (w' := set_object self r' w).
  assert (Hr' : objs w' !! self = Some r') by apply lookup_insert_eq.
  assert (Hl' : startswith (version r') "==" = false) by reflexivity.
  split; [|split; [|split; [|split]]].
  - now rewrite (is_locked_run _ _ _ Hr').
  - unfold negate_version.
    now rewrite (bind_Return _ _ _ _ _ (is_locked_run _ _ _ Hr')), Hl'.
  - exact (locked_version_unlocked _ _ _ Hr' Hl').
  - exact (semantic_version_not_locked _ _ _ Hr' Hl').
  - now rewrite (to_pipfile_lock_not_locked _ _ _ Hr' Hl').
Qed.

(** On an instance that is not locked, [semantic_version] raises
    [InternalError] and changes nothing, whether a semantic version was
    memoised before or not. *)
Theorem semantic_version_unlocked w self r :
  objs w !! self = Some r ->
  startswith (version r) "==" = false ->
  semantic_version self w = (w, Raise InternalError)
  /\ forall v, semantic_version self (set_object self (set_semantic_version v r) w)
               = (set_object self (set_semantic_version v r) w, Raise InternalError).
Proof.
  intros Hr Hl. split.
  - exact (semantic_version_not_locked _ _ _ Hr Hl).
  - intros v. apply (semantic_version_not_locked _ _ (set_semantic_version v r)).
    + apply lookup_insert_eq.
    + exact Hl.
Qed.


(** What [parse_semantic_version] answers depends on the identifier only;
    it never gets stuck. *)
Lemma parse_outcome s n w w' o :
  parse_semantic_version s n w = (w', o) ->
  o ≠ Stuck
  /\ forall n2 w2, exists w2', parse_semantic_version s n2 w2 = (w2', o).
Proof.
  unfold parse_semantic_version. destruct (Version_new s) as [v|e].
  - intros [= _ <-]. split; [discriminate|]. intros; eexists; reflexivity.
  - unfold bind, lift. destruct (Version_coerce s) as [v|e'].
    + intros [= _ <-]. split; [discriminate|]. intros; eexists; reflexivity.
    + intros [= _ <-]. split; [discriminate|]. intros; eexists; reflexivity.
Qed.

(** [duplicate] gives a new instance with the fields of the original and
    nothing memoised; negating the version of the duplicate leaves the
    original as it was. *)
Theorem duplicate_independent w self r :
  objs w !! self = Some r ->
  let copy := fresh (dom (objs w)) in
  let w' := set_object copy (without_caches r) w in
  copy ≠ self
  /\ duplicate self w = (w', Return copy)
  /\ objs w' !! self = Some r
  /\ (startswith (version r) "==" = true ->
      objs (negate_version copy w').1 !! self = Some r
      /\ version <$> objs (negate_version copy w').1 !! copy
         = Some ("!=" ++ slice_from 2 (version r))).
Proof.
  intros Hr copy w'.
  assert (Hne : copy ≠ self).
  { intros Heq. apply (is_fresh (dom (objs w))). fold copy. rewrite Heq.
    apply elem_of_dom. eauto. }
  assert (Hc : objs w' !! copy = Some (without_caches r)) by apply lookup_insert_eq.
  assert (Hs : objs w' !! self = Some r).
  { cbn. now rewrite lookup_insert_ne. }
  split; [exact Hne|]. split; [|split; [exact Hs|]].
  - unfold duplicate.
    now rewrite (bind_Return _ _ _ _ _ (load_run _ _ _ Hr)).
  - intros Hl.
    rewrite (negate_locked w' copy (without_caches r) Hc Hl). cbn [fst set_object objs].
    split.
    + rewrite lookup_insert_ne by exact Hne. exact Hs.
    + rewrite lookup_insert_eq. cbn [fmap option_fmap option_map set_version version
                                     without_caches].
      f_equal. apply startswith_eqeq in Hl. rewrite Hl at 1. reflexivity.
Qed.

(** [to_tuple] of a locked instance with an index is its name, its locked
    version and the URL of its index; two instances with the same tuple
    have the same name, version and index URL. *)
Theorem to_tuple_key w self a :
  objs w !! self = Some a ->
  (forall lv src, version a = "==" ++ lv -> index a = Some src ->
     to_tuple self w = (w, Return (name a, lv, Source.url src)))
  /\ (forall other b t, objs w !! other = Some b ->
        to_tuple self w = (w, Return t) -> to_tuple other w = (w, Return t) ->
        name a = name b /\ version a = version b
        /\ Source.url <$> index a = Source.url <$> index b).
Proof.
  intros Ha.
  assert (Hinv : forall l r t, objs w !! l = Some r -> to_tuple l w = (w, Return t) ->
            exists src, index r = Some src
                        /\ version r = "==" ++ slice_from 2 (version r)
                        /\ t = (name r, slice_from 2 (version r), Source.url src)).
  { intros l r t Hr. unfold to_tuple.
    rewrite (bind_Return _ _ _ _ _ (load_run _ _ _ Hr)).
    destruct (startswith (version r) "==") eqn:Hl.
    - rewrite (bind_Return _ _ _ _ _ (locked_version_locked _ _ _ Hr Hl)).
      destruct (index r) as [src|] eqn:Hi.
      + rewrite (bind_Return _ _ _ _ _ (index_url_Some _ _ _ _ Hr Hi)).
        intros [= <-]. exists src. apply startswith_eqeq in Hl. auto.
      + rewrite (bind_Raise _ _ _ _ _ (index_url_None _ _ _ Hr Hi)). discriminate.
    - rewrite (bind_Raise _ _ _ _ _ (locked_version_unlocked _ _ _ Hr Hl)).
      discriminate. }
  split.
  - intros lv src Hv Hi.
    assert (Hl : startswith (version a) "==" = true) by now rewrite Hv.
    unfold to_tuple.
    rewrite (bind_Return _ _ _ _ _ (load_run _ _ _ Ha)).
    rewrite (bind_Return _ _ _ _ _ (locked_version_locked _ _ _ Ha Hl)).
    rewrite (bind_Return _ _ _ _ _ (index_url_Some _ _ _ _ Ha Hi)).
    rewrite Hv. reflexivity.
  - intros other b t Hb Hta Htb.
    destruct (Hinv _ _ _ Ha Hta) as (sa & Hia & Hva & ->).
    destruct (Hinv _ _ _ Hb Htb) as (sb & Hib & Hvb & [= Hn Hv Hu]).
    split; [exact Hn|]. split.
    + assert (Hv' : slice_from 2 (version a) = slice_from 2 (version b)) by exact Hv.
      etransitivity; [exact Hva|]. rewrite Hv'. symmetry. exact Hvb.
    + rewrite Hia, Hib. cbn. now rewrite Hu.
Qed.

(** [semantic_version] parses on every call and never answers from what is
    memoised: its outcome is the same whatever the instance has memoised,
    a stale version included, and a call that returns leaves the version it
    returned memoised in the instance. *)
Theorem semantic_version_reparses w self r c :
  objs w !! self = Some r ->
  (semantic_version self (set_object self (with_semantic_version c r) w)).2
  = (semantic_version self w).2
  /\ (forall v, (semantic_version self w).2 = Return (Some v) ->
        objs (semantic_version self w).1 !! self = Some (set_semantic_version v r)).
Proof.
  intros Hr.
  set (r' := with_semantic_version c r). set (w' := set_object self r' w).
  assert (Hr' : objs w' !! self = Some r') by apply lookup_insert_eq.
  destruct (startswith (version r) "==") eqn:Hl.
  2: { rewrite (semantic_version_not_locked w' self r' Hr' Hl).
       rewrite (semantic_version_not_locked w self r Hr Hl).
       split; [reflexivity | discriminate]. }
  assert (Hl' : startswith (version r') "==" = true) by exact Hl.
  set (lv := slice_from 2 (version r)) in *.
  destruct (parse_semantic_version lv (Some (name r)) w) as [wa oa] eqn:Hp.
  destruct (parse_outcome _ _ _ _ _ Hp) as [Hns Hindep].
  destruct (parse_frame _ _ _ _ _ Hp) as [Hoa _].
  destruct (Hindep (Some (name r')) w') as [wa' Hp'].
  destruct oa as [v|e|]; [| |now destruct Hns].
  - rewrite (semantic_version_first w' self r' wa' v Hr' Hl' Hp').
    rewrite (semantic_version_first w self r wa v Hr Hl Hp).
    cbn [fst snd objs]. split; [reflexivity|].
    intros v0 [= <-]. apply lookup_insert_eq.
  - destruct (decide (e = ValueError)) as [->|He].
    2: { rewrite (semantic_version_first_raises w' self r' wa' e Hr' Hl' Hp' He).
         rewrite (semantic_version_first_raises w self r wa e Hr Hl Hp He).
         split; [reflexivity | discriminate]. }
    destruct (map_int (split "." lv)) as [ints|e] eqn:Hi.
    2: { rewrite (semantic_version_retry_int w' self r' wa' e Hr' Hl' Hp' Hi).
         rewrite (semantic_version_retry_int w self r wa e Hr Hl Hp Hi).
         split; [reflexivity | discriminate]. }
    destruct (parse_semantic_version (join "." (map str ints)) (Some (name r)) wa)
      as [wb ob] eqn:Hq.
    destruct (parse_outcome _ _ _ _ _ Hq) as [_ Hindep'].
    destruct (Hindep' (Some (name r')) wa') as [wb' Hq'].
    rewrite (semantic_version_retry w' self r' wa' ints wb' ob Hr' Hl' Hp' Hi Hq').
    rewrite (semantic_version_retry w self r wa ints wb ob Hr Hl Hp Hi Hq).
    destruct ob as [v|e|]; cbn [fst snd objs].
    + split; [reflexivity|]. intros v0 [= <-]. apply lookup_insert_eq.
    + split; [reflexivity | discriminate].
    + split; [reflexivity | discriminate].
Qed.

End Methods.

(** ** Further properties of the entries *)

Section MoreEntries.

Context `{Semver}.

Lemma opt_truthy_Some (markers_ : option string) :
  opt_truthy markers_ = true ->
  exists mk, markers_ = Some mk /\ mk ≠ "".
Proof.
  destruct markers_ as [mk|]; [|discriminate]. cbn.
  intros Hm. exists mk. split; [reflexivity|].
  now apply String.eqb_neq, negb_true_iff.
Qed.

Lemma lock_entry_lookup_index r :
  lock_entry r !! "index" = (fun src => VStr (Source.name src)) <$> index r.
Proof.
  unfold lock_entry. destruct (index r) as [src|]; cbn [fmap option_fmap option_map].
  - now rewrite lookup_insert_eq.
  - destruct (opt_truthy (markers r));
      now rewrite ?(lookup_insert_ne _ "markers"), (lookup_insert_ne _ "hashes"),
        (lookup_insert_ne _ "version"), lookup_empty by done.
Qed.

Lemma lock_entry_lookup_markers r :
  lock_entry r !! "markers" = if opt_truthy (markers r) then VStr <$> markers r else None.
Proof.
  unfold lock_entry. destruct (opt_truthy (markers r)) eqn:Hm.
  - destruct (opt_truthy_Some _ Hm) as (mk & -> & _).
    cbn [from_option fmap option_fmap option_map].
    destruct (index r);
      now rewrite ?(lookup_insert_ne _ "index"), lookup_insert_eq by done.
  - destruct (index r);
      now rewrite ?(lookup_insert_ne _ "index"), (lookup_insert_ne _ "hashes"),
        (lookup_insert_ne _ "version"), lookup_empty by done.
Qed.

Lemma lock_entry_lookup_other r k :
  k ≠ "version" -> k ≠ "hashes" -> k ≠ "index" -> k ≠ "markers" ->
  lock_entry r !! k = None.
Proof.
  intros Hv Hh Hi Hm. unfold lock_entry.
  destruct (index r), (opt_truthy (markers r));
    now rewrite ?(lookup_insert_ne _ "index"), ?(lookup_insert_ne _ "markers"),
      (lookup_insert_ne _ "hashes"), (lookup_insert_ne _ "version"), lookup_empty
      by done.
Qed.

(** [to_pipfile_lock] raises [InternalError] on an instance that is not
    locked. On a locked one it always returns, empty hashes included, one
    entry under the name of the package: [version] and [hashes] are always
    there, [index] holds the name of the index when there is one,
    [markers] is there when the markers are a non-empty string, and there
    is no other key. The call logs one debug record and changes nothing
    else. *)
Theorem to_pipfile_lock_spec w self r :
  objs w !! self = Some r ->
  (startswith (version r) "==" = false ->
   to_pipfile_lock self w
   = (add_log [DebugGeneratingLockEntry (name r)] w, Raise InternalError))
  /\ (startswith (version r) "==" = true ->
      exists entry,
        to_pipfile_lock self w
        = (add_log [DebugGeneratingLockEntry (name r)] w, Return {[ name r := entry ]})
        /\ entry !! "version" = Some (VStr (version r))
        /\ entry !! "hashes" = Some (VList (hashes r))
        /\ entry !! "index" = (fun src => VStr (Source.name src)) <$> index r
        /\ entry !! "markers"
           = (if opt_truthy (markers r) then VStr <$> markers r else None)
        /\ forall k, k ≠ "version" -> k ≠ "hashes" -> k ≠ "index" -> k ≠ "markers" ->
                     entry !! k = None).
Proof.
  intros Hr. split; intros Hl.
  - exact (to_pipfile_lock_not_locked _ _ _ Hr Hl).
  - exists (lock_entry r). split; [exact (to_pipfile_lock_run _ _ _ Hr Hl)|].
    split; [apply lock_entry_version|]. split; [apply lock_entry_hashes|].
    split; [apply lock_entry_lookup_index|]. split; [apply lock_entry_lookup_markers|].
    intros k. apply lock_entry_lookup_other.
Qed.

(** Keys of a lock entry that the parser does not know do no harm: the
    instance is built from the four known keys, and one warning is logged
    that carries exactly the other keys; without other keys there is no
    warning. *)
Theorem lock_entry_leftover w package_name entry develop_ meta m v h index_ markers_ :
  dicts w !! entry = Some m ->
  m !! "version" = Some (VStr v) -> v ≠ "" ->
  m !! "hashes" = Some (VList h) -> h ≠ [] ->
  index_resolves meta (default VNone (m !! "index")) index_ ->
  default VNone (m !! "markers") = from_option VStr VNone markers_ ->
  let run := from_pipfile_lock_entry package_name entry develop_ meta w in
  let rest := delete "markers" (delete "hashes" (delete "index" (delete "version" m))) in
  run.2 = Return (fresh (dom (objs w)))
  /\ (rest = ∅ ->
      logger run.1 = DebugParsingLockEntry package_name m :: logger w)
  /\ (rest ≠ ∅ ->
      logger run.1 = WarningUnusedEntries package_name rest
                     :: DebugParsingLockEntry package_name m :: logger w)
  /\ (forall k, rest !! k
                = if bool_decide (k ∈ ["version"; "hashes"; "index"; "markers"])
                  then None else m !! k).
Proof.
  intros Hd Hv Hvne Hh Hhne Hi Hm run rest. unfold run.
  rewrite (lock_entry_ok _ package_name entry develop_ meta m v h index_ markers_
             Hd Hv Hvne Hh Hhne Hi Hm).
  fold rest. cbn [fst snd logger].
  split; [reflexivity|]. split; [|split].
  - intros ->. now rewrite bool_decide_eq_true_2.
  - intros Hne. now rewrite bool_decide_eq_false_2.
  - intros k. unfold rest.
    destruct (decide (k ∈ ["version"; "hashes"; "index"; "markers"])) as [Hin|Hnin].
    + rewrite bool_decide_eq_true_2 by exact Hin.
      rewrite !elem_of_cons, elem_of_nil in Hin.
      destruct Hin as [->|[->|[->|[->|[]]]]].
      * now rewrite !(lookup_delete_ne _ _ "version"), lookup_delete_eq by done.
      * now rewrite (lookup_delete_ne _ _ "hashes"), lookup_delete_eq by done.
      * now rewrite !(lookup_delete_ne _ _ "index"), lookup_delete_eq by done.
      * now rewrite lookup_delete_eq.
    + rewrite bool_decide_eq_false_2 by exact Hnin.
      rewrite !lookup_delete_ne; [reflexivity|..]; intros <-; apply Hnin;
        rewrite !elem_of_cons; auto.
Qed.

(** Parsing a lock entry and writing the instance back gives the entry
    again, provided the entry has the four known keys only, a locked
    version, non-empty hashes, markers (if any) that are a non-empty
    string, and an index (if any) registered under its own name. *)
Theorem parse_then_serialise w package_name entry develop_ meta m v h :
  dicts w !! entry = Some m ->
  (forall k, is_Some (m !! k) -> k ∈ ["version"; "hashes"; "index"; "markers"]) ->
  m !! "version" = Some (VStr v) -> startswith v "==" = true ->
  m !! "hashes" = Some (VList h) -> h ≠ [] ->
  (m !! "index" = None
   \/ exists s src, m !! "index" = Some (VStr s)
                    /\ sources meta !! s = Some src /\ Source.name src = s) ->
  (m !! "markers" = None
   \/ exists mk, m !! "markers" = Some (VStr mk) /\ mk ≠ "") ->
  let run := from_pipfile_lock_entry package_name entry develop_ meta w in
  run.2 = Return (fresh (dom (objs w)))
  /\ (to_pipfile_lock (fresh (dom (objs w))) run.1).2 = Return {[ package_name := m ]}.
Proof.
  intros Hd Hkeys Hv Hl Hh Hhne Hi Hm run.
  assert (Hvne : v ≠ "") by (intros ->; discriminate Hl).
  assert (exists index_, index_resolves meta (default VNone (m !! "index")) index_
            /\ m !! "index" = (fun src => VStr (Source.name src)) <$> index_)
    as (index_ & Hres & Hidx).
  { destruct Hi as [Hi|(s & src & Hi & Hs & Hn)].
    - exists None. rewrite Hi. split; reflexivity.
    - exists (Some src). rewrite Hi. cbn. rewrite Hn. split; [eauto|reflexivity]. }
  assert (exists markers_, default VNone (m !! "markers") = from_option VStr VNone markers_
            /\ m !! "markers"
               = (if opt_truthy markers_ then VStr <$> markers_ else None))
    as (markers_ & Hmk & Hmk').
  { destruct Hm as [Hm|(mk & Hm & Hne)].
    - exists None. rewrite Hm. split; reflexivity.
    - exists (Some mk). rewrite Hm. split; [reflexivity|].
      cbn. apply String.eqb_neq in Hne. now rewrite Hne. }
  unfold run.
  rewrite (lock_entry_ok _ package_name entry develop_ meta m v h index_ markers_
             Hd Hv Hvne Hh Hhne Hres Hmk).
  cbn [fst snd]. split; [reflexivity|].
  set (r := {| name := package_name; version := v; develop := develop_;
               index := index_; hashes := h; markers := markers_;
               _semantic_version := None; _version_spec := None |}).
  match goal with
  | |- (to_pipfile_lock ?l ?w').2 = _ =>
      rewrite (to_pipfile_lock_run w' l r (lookup_insert_eq _ _ _) Hl)
  end.
  cbn [snd name r]. do 2 f_equal. apply map_eq. intros k.
  destruct (decide (k = "version")) as [->|Hkv]; [now rewrite lock_entry_version|].
  destruct (decide (k = "hashes")) as [->|Hkh]; [now rewrite lock_entry_hashes|].
  destruct (decide (k = "index")) as [->|Hki]; [now rewrite lock_entry_lookup_index|].
  destruct (decide (k = "markers")) as [->|Hkm]; [now rewrite lock_entry_lookup_markers|].
  rewrite (lock_entry_lookup_other r k Hkv Hkh Hki Hkm).
  destruct (m !! k) eqn:Hk; [|reflexivity].
  exfalso. assert (Hin : k ∈ ["version"; "hashes"; "index"; "markers"]).
  { apply Hkeys. rewrite Hk. eauto. }
  rewrite !elem_of_cons, elem_of_nil in Hin. intuition congruence.
Qed.


(** *** Entries of a Pipfile *)

Lemma pipfile_entry_str w package_name s develop_ meta :
  from_pipfile_entry package_name (EntryStr s) develop_ meta w
  = ({| objs := <[fresh (dom (objs w)) :=
                   {| name := package_name; version := s; develop := develop_;
                      index := None; hashes := []; markers := None;
                      _semantic_version := None; _version_spec := None |}]> (objs w);
        dicts := dicts w;
        logger := DebugParsingPipfileEntry package_name (inl s) :: logger w |},
     Return (fresh (dom (objs w)))).
Proof. reflexivity. Qed.

Lemma pipfile_entry_ok w package_name entry develop_ meta m v index_ :
  dicts w !! entry = Some m ->
  m !! "git" = None -> m !! "hg" = None -> m !! "bzr" = None -> m !! "svn" = None ->
  m !! "version" = Some (VStr v) ->
  index_resolves meta (default VNone (m !! "index")) index_ ->
  let rest := delete "index" (delete "version" m) in
  from_pipfile_entry package_name (EntryDict entry) develop_ meta w
  = ({| objs := <[fresh (dom (objs w)) :=
                   {| name := package_name; version := v; develop := develop_;
                      index := index_; hashes := []; markers := None;
                      _semantic_version := None; _version_spec := None |}]> (objs w);
        dicts := <[entry := rest]> (dicts w);
        logger := (if bool_decide (rest = ∅) then [] else [WarningUnparsedPipfile rest])
                  ++ DebugParsingPipfileEntry package_name (inr m) :: logger w |},
     Return (fresh (dom (objs w)))).
Proof.
  intros Hd Hgit Hhg Hbzr Hsvn Hv Hi rest. unfold from_pipfile_entry.
  rewrite (bind_Return _ _ _ _ _ (dict_load_run _ _ _ Hd)).
  unfold bind at 1. unfold log at 1.
  change {| objs := objs w; dicts := dicts w;
            logger := DebugParsingPipfileEntry package_name (inr m) :: logger w |}
    with (add_log [DebugParsingPipfileEntry package_name (inr m)] w).
  set (wa := add_log _ w).
  assert (Hda : dicts wa !! entry = Some m) by exact Hd.
  rewrite (bind_Return _ _ _ _ _ (vcs_check_run _ _ _ Hda)).
  rewrite (no_vcs m Hgit Hhg Hbzr Hsvn).
  rewrite (bind_Return _ _ _ _ _ (dict_pop_Some _ _ _ _ _ Hda Hv)).
  rewrite (bind_Return _ _ _ _ _
             (dict_pop_default_run _ _ _ "index" VNone (dicts_set_dict wa entry _))).
  rewrite set_dict_set_dict.
  rewrite (lookup_delete_ne m "version" "index") by done. fold rest.
  rewrite (bind_Return _ _ _ _ _ (dict_truthy_run _ _ _ (dicts_set_dict wa entry rest))).
  destruct (bool_decide (rest = ∅)); cbn [negb when].
  - unfold bind at 1. unfold ret at 1.
    now rewrite (bind_Return _ _ _ _ _ (get_index_resolves _ _ _ _ _ Hi)).
  - unfold bind at 1.
    rewrite (bind_Return _ _ _ _ _ (dict_load_run _ _ _ (dicts_set_dict wa entry rest))).
    unfold log at 1.
    now rewrite (bind_Return _ _ _ _ _ (get_index_resolves _ _ _ _ _ Hi)).
Qed.

Lemma pipfile_entry_unknown_index w package_name entry develop_ meta m v s :
  dicts w !! entry = Some m ->
  m !! "git" = None -> m !! "hg" = None -> m !! "bzr" = None -> m !! "svn" = None ->
  m !! "version" = Some v ->
  m !! "index" = Some (VStr s) -> sources meta !! s = None ->
  (from_pipfile_entry package_name (EntryDict entry) develop_ meta w).2
  = Raise PipfileParseError.
Proof.
  intros Hd Hgit Hhg Hbzr Hsvn Hv Hi Hs. unfold from_pipfile_entry.
  rewrite (bind_Return _ _ _ _ _ (dict_load_run _ _ _ Hd)).
  unfold bind at 1. unfold log at 1.
  set (wa := {| objs := objs w; dicts := dicts w; logger := _ |}).
  assert (Hda : dicts wa !! entry = Some m) by exact Hd.
  rewrite (bind_Return _ _ _ _ _ (vcs_check_run _ _ _ Hda)).
  rewrite (no_vcs m Hgit Hhg Hbzr Hsvn).
  rewrite (bind_Return _ _ _ _ _ (dict_pop_Some _ _ _ _ _ Hda Hv)).
  rewrite (bind_Return _ _ _ _ _
             (dict_pop_default_run _ _ _ "index" VNone (dicts_set_dict wa entry _))).
  rewrite set_dict_set_dict.
  rewrite (lookup_delete_ne m "version" "index") by done. rewrite Hi.
  cbn [default from_option id].
  set (rest := delete "index" (delete "version" m)).
  rewrite (bind_Return _ _ _ _ _ (dict_truthy_run _ _ _ (dicts_set_dict wa entry rest))).
  destruct (bool_decide (rest = ∅)); cbn [negb when].
  - unfold bind at 1. unfold ret at 1.
    now rewrite (bind_Raise _ _ _ _ _ (get_index_unknown _ _ _ _ Hs)).
  - unfold bind at 1.
    rewrite (bind_Return _ _ _ _ _ (dict_load_run _ _ _ (dicts_set_dict wa entry rest))).
    unfold log at 1.
    now rewrite (bind_Raise _ _ _ _ _ (get_index_unknown _ _ _ _ Hs)).
Qed.

(** [from_pipfile_entry]: a bare version string always gives an instance
    without index, whatever the string and the registry hold. A dictionary
    without version control keys and with a [version] string gives an
    instance when its index, if it names one, is registered, and raises
    [PipfileParseError] when it is not. In both cases the new instance has
    no hashes and no markers, also when the dictionary has a [markers]
    key. *)
Theorem pipfile_entry_spec w package_name develop_ meta :
  let built v index_ :=
    {| name := package_name; version := v; develop := develop_; index := index_;
       hashes := []; markers := None;
       _semantic_version := None; _version_spec := None |} in
  let instance := fresh (dom (objs w)) in
  (forall s,
     let run := from_pipfile_entry package_name (EntryStr s) develop_ meta w in
     run.2 = Return instance /\ objs run.1 !! instance = Some (built s None)
     /\ dicts run.1 = dicts w)
  /\ (forall entry m,
        dicts w !! entry = Some m ->
        m !! "git" = None -> m !! "hg" = None -> m !! "bzr" = None ->
        m !! "svn" = None ->
        let run := from_pipfile_entry package_name (EntryDict entry) develop_ meta w in
        (forall v index_,
           m !! "version" = Some (VStr v) ->
           index_resolves meta (default VNone (m !! "index")) index_ ->
           run.2 = Return instance /\ objs run.1 !! instance = Some (built v index_))
        /\ (forall v s,
              m !! "version" = Some v -> m !! "index" = Some (VStr s) ->
              sources meta !! s = None ->
              run.2 = Raise PipfileParseError)).
Proof.
  intros built instance. split.
  - intros s run. unfold run. rewrite pipfile_entry_str. cbn [fst snd objs dicts].
    split; [reflexivity|]. split; [apply lookup_insert_eq | reflexivity].
  - intros entry m Hd Hgit Hhg Hbzr Hsvn run. split.
    + intros v index_ Hv Hi. unfold run.
      rewrite (pipfile_entry_ok _ package_name entry develop_ meta m v index_
                 Hd Hgit Hhg Hbzr Hsvn Hv Hi).
      cbn [fst snd objs]. split; [reflexivity | apply lookup_insert_eq].
    + intros v s Hv Hi Hs.
      exact (pipfile_entry_unknown_index _ _ _ _ _ m v s Hd Hgit Hhg Hbzr Hsvn Hv Hi Hs).
Qed.

End MoreEntries.

(** ** Round trip through a Pipfile entry, and what constructors leave alone *)

Section Constructors.

Context `{Semver}.

(** The value [to_pipfile] writes for an instance, parsed again with the
    same name and [develop] flag, gives an instance with the name, the
    version and the index of the original, provided the index, if any, is
    registered under its own name. The hashes and the markers of the
    original are lost: the new instance has none. The instance need not be
    locked. *)
Theorem pipfile_roundtrip w r meta :
  (forall src, index r = Some src -> sources meta !! Source.name src = Some src) ->
  let run := reparse_pipfile (name r) (pipfile_value r) (develop r) meta w in
  let instance := fresh (dom (objs w)) in
  run.2 = Return instance
  /\ objs run.1 !! instance
     = Some {| name := name r; version := version r; develop := develop r;
               index := index r; hashes := []; markers := None;
               _semantic_version := None; _version_spec := None |}.
Proof.
  intros Hi run instance.
  assert (Hdict : forall (m : dict) index_,
            m !! "git" = None -> m !! "hg" = None -> m !! "bzr" = None ->
            m !! "svn" = None -> m !! "version" = Some (VStr (version r)) ->
            index_resolves meta (default VNone (m !! "index")) index_ ->
            exists w', reparse_pipfile (name r) (inr m) (develop r) meta w
                       = (w', Return instance)
                       /\ objs w' !! instance
                          = Some {| name := name r; version := version r;
                                    develop := develop r; index := index_;
                                    hashes := []; markers := None;
                                    _semantic_version := None;
                                    _version_spec := None |}).
  { intros m index_ Hgit Hhg Hbzr Hsvn Hv Hres. unfold reparse_pipfile.
    unfold bind at 1. unfold dict_new.
    match goal with
    | |- context [from_pipfile_entry ?n (EntryDict ?d) ?dv ?mt ?w0] =>
        rewrite (pipfile_entry_ok w0 n d dv mt m (version r) index_
                   (lookup_insert_eq _ _ _) Hgit Hhg Hbzr Hsvn Hv Hres)
    end.
    eexists. split; [reflexivity|]. cbn [objs]. apply lookup_insert_eq. }
  assert (Hrun : exists w', run = (w', Return instance)
                 /\ objs w' !! instance
                    = Some {| name := name r; version := version r;
                              develop := develop r; index := index r;
                              hashes := []; markers := None;
                              _semantic_version := None; _version_spec := None |}).
  { unfold run, pipfile_value.
    destruct (index r) as [src|] eqn:Hidx; destruct (opt_truthy (markers r)) eqn:Hm.
    - rewrite bool_decide_eq_false_2 by apply insert_non_empty.
      apply Hdict; try (now rewrite !lookup_insert_ne, lookup_empty by done).
      + now rewrite lookup_insert_eq.
      + rewrite !(lookup_insert_ne _ _ "index") by done. rewrite lookup_insert_eq.
        cbn. split; [eauto|]. now apply Hi.
    - rewrite bool_decide_eq_false_2 by apply insert_non_empty.
      apply Hdict; try (now rewrite !lookup_insert_ne, lookup_empty by done).
      + now rewrite lookup_insert_eq.
      + rewrite (lookup_insert_ne _ _ "index") by done. rewrite lookup_insert_eq.
        cbn. split; [eauto|]. now apply Hi.
    - rewrite bool_decide_eq_false_2 by apply insert_non_empty.
      apply Hdict; try (now rewrite !lookup_insert_ne, lookup_empty by done).
      + now rewrite lookup_insert_eq.
    - rewrite bool_decide_eq_true_2 by reflexivity.
      unfold reparse_pipfile. rewrite pipfile_entry_str.
      eexists. split; [reflexivity|]. cbn [objs]. apply lookup_insert_eq. }
  destruct Hrun as (w' & -> & Ho). cbn [fst snd]. now split.
Qed.

(** *** Instances a computation leaves alone *)

Lemma keeps_objs_preserves {A} (c : M A) :
  (forall w w' o, c w = (w', o) -> objs w' = objs w) -> preserves_instances c.
Proof. intros Hc w w' o Hrun l r Hl. now rewrite (Hc _ _ _ Hrun). Qed.

Lemma preserves_bind {A B} (c : M A) (k : A -> M B) :
  preserves_instances c -> (forall a, preserves_instances (k a)) ->
  preserves_instances (bind c k).
Proof.
  intros Hc Hk w w' o. unfold bind.
  destruct (c w) as [w1 [a|e|]] eqn:Hcw.
  - intros Hrun l r Hl. exact (Hk _ _ _ _ Hrun _ _ (Hc _ _ _ Hcw _ _ Hl)).
  - intros [= <- _]. exact (Hc _ _ _ Hcw).
  - intros [= <- _]. exact (Hc _ _ _ Hcw).
Qed.

Lemma preserves_ret {A} (a : A) : preserves_instances (ret a).
Proof. apply keeps_objs_preserves. now intros w w' o [= <- _]. Qed.

Lemma preserves_raise {A} e : preserves_instances (@raise _ A e).
Proof. apply keeps_objs_preserves. now intros w w' o [= <- _]. Qed.

Lemma preserves_stuck {A} : preserves_instances (@stuck _ A).
Proof. apply keeps_objs_preserves. now intros w w' o [= <- _]. Qed.

Lemma preserves_log r : preserves_instances (log r).
Proof. apply keeps_objs_preserves. now intros w w' o [= <- _]. Qed.

Lemma preserves_load self : preserves_instances (load self).
Proof.
  apply keeps_objs_preserves. intros w w' o. unfold load.
  destruct (objs w !! self); now intros [= <- _].
Qed.

Lemma preserves_dict_load d : preserves_instances (dict_load d).
Proof.
  apply keeps_objs_preserves. intros w w' o. unfold dict_load.
  destruct (dicts w !! d); now intros [= <- _].
Qed.

Lemma preserves_dict_store d m : preserves_instances (dict_store d m).
Proof. apply keeps_objs_preserves. now intros w w' o [= <- _]. Qed.

Lemma preserves_dict_new m : preserves_instances (dict_new m).
Proof. apply keeps_objs_preserves. now intros w w' o [= <- _]. Qed.

Lemma preserves_when b c : preserves_instances c -> preserves_instances (when b c).
Proof. destruct b; [trivial|]. intros _. apply preserves_ret. Qed.

Lemma preserves_any {A} (p : A -> M bool) xs :
  (forall x, preserves_instances (p x)) -> preserves_instances (any p xs).
Proof.
  intros Hp. induction xs as [|x xs IH]; cbn [any].
  - apply preserves_ret.
  - apply preserves_bind; [apply Hp|]. intros [|]; [apply preserves_ret | exact IH].
Qed.

Lemma preserves_dict_get d key : preserves_instances (dict_get d key).
Proof.
  apply preserves_bind; [apply preserves_dict_load | intros; apply preserves_ret].
Qed.

Lemma preserves_dict_contains d key : preserves_instances (dict_contains d key).
Proof.
  apply preserves_bind; [apply preserves_dict_load | intros; apply preserves_ret].
Qed.

Lemma preserves_dict_truthy d : preserves_instances (dict_truthy d).
Proof.
  apply preserves_bind; [apply preserves_dict_load | intros; apply preserves_ret].
Qed.

Lemma preserves_dict_pop d key : preserves_instances (dict_pop d key).
Proof.
  apply preserves_bind; [apply preserves_dict_load|].
  intros m. destruct (m !! key).
  - apply preserves_bind; [apply preserves_dict_store | intros; apply preserves_ret].
  - apply preserves_raise.
Qed.

Lemma preserves_dict_pop_default d key dflt :
  preserves_instances (dict_pop_default d key dflt).
Proof.
  apply preserves_bind; [apply preserves_dict_load|].
  intros m. destruct (m !! key).
  - apply preserves_bind; [apply preserves_dict_store | intros; apply preserves_ret].
  - apply preserves_ret.
Qed.

Lemma preserves_dict_copy d : preserves_instances (dict_copy d).
Proof.
  apply preserves_bind; [apply preserves_dict_load | intros; apply preserves_dict_new].
Qed.

(** A new instance gets a reference no instance has. *)
Lemma preserves_new_object r : preserves_instances (new_object r).
Proof.
  intros w w' o [= <- _] l x Hl. cbn. rewrite lookup_insert_ne; [exact Hl|].
  intros <-. apply (is_fresh (dom (objs w))). apply elem_of_dom. eauto.
Qed.

Lemma preserves_init name_ version_ develop_ index_ hashes_ markers_ :
  preserves_instances
    (PackageVersion_init name_ version_ develop_ index_ hashes_ markers_).
Proof.
  unfold PackageVersion_init.
  destruct version_, hashes_, markers_;
    first [apply preserves_stuck | apply preserves_new_object].
Qed.

Lemma preserves_get_index meta package_name index_name :
  preserves_instances (_get_index_from_meta meta package_name index_name).
Proof.
  apply keeps_objs_preserves. intros w w' o. destruct index_name as [|s|l].
  - now intros [= <- _].
  - destruct (sources meta !! s) as [src|] eqn:Hs.
    + rewrite (get_index_found _ _ _ _ _ Hs). now intros [= <- _].
    + rewrite (get_index_unknown _ _ _ _ Hs). now intros [= <- _].
  - now intros [= <- _].
Qed.

(** The three operations that build instances never change an instance
    that is already there, however they end: what they build gets a new
    reference. *)
Theorem constructors_preserve package_name develop_ meta :
  (forall entry,
     preserves_instances (from_pipfile_lock_entry package_name entry develop_ meta))
  /\ (forall entry,
        preserves_instances (from_pipfile_entry package_name entry develop_ meta))
  /\ (forall self, preserves_instances (duplicate self)).
Proof.
  split; [|split].
  - intros entry. unfold from_pipfile_lock_entry.
    apply preserves_bind; [apply preserves_dict_load | intros shown].
    apply preserves_bind; [apply preserves_log | intros _].
    apply preserves_bind; [apply preserves_dict_copy | intros e].
    apply preserves_bind.
    { apply preserves_any. intros conf.
      apply preserves_bind; [apply preserves_dict_get | intros; apply preserves_ret]. }
    intros [|]; [apply preserves_raise|].
    apply preserves_bind; [apply preserves_dict_pop | intros version_].
    apply preserves_bind; [apply preserves_dict_pop_default | intros index_name].
    apply preserves_bind; [apply preserves_get_index | intros index_].
    apply preserves_bind; [apply preserves_dict_pop | intros hashes_].
    apply preserves_bind; [apply preserves_dict_pop_default | intros markers_].
    apply preserves_bind; [apply preserves_init | intros instance].
    apply preserves_bind; [apply preserves_dict_truthy | intros unused].
    apply preserves_bind; [|intros; apply preserves_ret].
    apply preserves_when, preserves_bind; [apply preserves_dict_load|].
    intros; apply preserves_log.
  - intros [s|entry]; unfold from_pipfile_entry.
    + apply preserves_bind; [apply preserves_log | intros _].
      apply preserves_bind; [apply preserves_get_index | intros index_].
      apply preserves_init.
    + apply preserves_bind; [apply preserves_dict_load | intros shown].
      apply preserves_bind; [apply preserves_log | intros _].
      apply preserves_bind.
      { apply preserves_any. intros vcs. apply preserves_dict_contains. }
      intros [|]; [apply preserves_raise|].
      apply preserves_bind; [apply preserves_dict_pop | intros version_].
      apply preserves_bind; [apply preserves_dict_pop_default | intros index_name].
      apply preserves_bind; [apply preserves_dict_truthy | intros rest].
      apply preserves_bind.
      { apply preserves_when, preserves_bind; [apply preserves_dict_load|].
        intros; apply preserves_log. }
      intros _.
      apply preserves_bind; [apply preserves_get_index | intros index_].
      apply preserves_init.
  - intros self. unfold duplicate.
    apply preserves_bind; [apply preserves_load | intros r].
    apply preserves_new_object.
Qed.

End Constructors.

(** ** The further properties on the sample data *)

Section MoreSamples.

#[local] Existing Instance PySemver_instance.

Import Examples.

Lemma locked_version_spec_witness :
  locked_version 1 (world [locked_1_2_3] []) = (world [locked_1_2_3] [], Return "1.2.3")
  /\ locked_version 1 (world [unlocked] []) = (world [unlocked] [], Raise InternalError).
Proof.
  split.
  - apply (proj1 (proj1 (locked_version_spec (world [locked_1_2_3] []) 1%positive
                           locked_1_2_3 eq_refl) "1.2.3")).
    reflexivity.
  - apply (proj1 (proj1 (proj2 (locked_version_spec (world [unlocked] []) 1%positive
                                  unlocked eq_refl)))).
    reflexivity.
Defined.

Lemma negate_version_unlocks_witness :
  negate_version 1 (negate_version 1 (world [locked_1_2_3] [])).1
  = ((negate_version 1 (world [locked_1_2_3] [])).1, Raise InternalError).
Proof.
  apply (proj1 (proj2 (negate_version_unlocks (world [locked_1_2_3] []) 1%positive
                         locked_1_2_3 eq_refl eq_refl))).
Defined.

Lemma semantic_version_unlocked_witness :
  semantic_version 1 (world [unlocked] []) = (world [unlocked] [], Raise InternalError).
Proof.
  apply (proj1 (semantic_version_unlocked (world [unlocked] []) 1%positive unlocked
                  eq_refl eq_refl)).
Defined.

(** The instance at [==2.0.0] with 1.0.0 memoised answers 2.0.0. *)
Lemma semantic_version_reparses_witness :
  (semantic_version 1
     (set_object 1
        (with_semantic_version
           (Some {| PySemver.major := 1; PySemver.minor := 0; PySemver.patch := 0;
                    PySemver.prerelease := []; PySemver.build := [] |}) v2)
        (world [v2] []))).2
  = Return (Some {| PySemver.major := 2; PySemver.minor := 0; PySemver.patch := 0;
                    PySemver.prerelease := []; PySemver.build := [] |}).
Proof.
  rewrite (proj1 (semantic_version_reparses (world [v2] []) 1%positive v2
                    (Some {| PySemver.major := 1; PySemver.minor := 0;
                             PySemver.patch := 0; PySemver.prerelease := [];
                             PySemver.build := [] |}) eq_refl)).
  reflexivity.
Defined.

Lemma duplicate_independent_witness :
  duplicate 1 (world [locked_1_2_3] [])
  = (set_object 2 (without_caches locked_1_2_3) (world [locked_1_2_3] []), Return 2%positive)
  /\ objs (negate_version 2
             (set_object 2 (without_caches locked_1_2_3) (world [locked_1_2_3] []))).1
       !! 1%positive = Some locked_1_2_3.
Proof.
  destruct (duplicate_independent (world [locked_1_2_3] []) 1%positive locked_1_2_3
              eq_refl) as (_ & Hdup & _ & Hneg).
  split; [exact Hdup|]. apply Hneg. reflexivity.
Defined.

Lemma to_tuple_key_witness :
  to_tuple 1 (world [from_pypi] [])
  = (world [from_pypi] [], Return ("pkg", "1.0.0", "https://pypi.org/simple")).
Proof.
  apply (proj1 (to_tuple_key (world [from_pypi] []) 1%positive from_pypi eq_refl)
           "1.0.0" pypi); reflexivity.
Defined.

Lemma to_pipfile_lock_spec_witness :
  exists entry,
    to_pipfile_lock 1 (world [complete] [])
    = (add_log [DebugGeneratingLockEntry "pkg"] (world [complete] []),
       Return {[ "pkg" := entry ]})
    /\ entry !! "index" = Some (VStr "pypi")
    /\ entry !! "markers" = Some (VStr "python_version >= '3.6'").
Proof.
  destruct (proj2 (to_pipfile_lock_spec (world [complete] []) 1%positive complete
                     eq_refl) eq_refl)
    as (entry & Hrun & _ & _ & Hindex & Hmarkers & _).
  exists entry. split; [exact Hrun|]. split; [exact Hindex | exact Hmarkers].
Defined.

Lemma lock_entry_leftover_witness :
  (from_pipfile_lock_entry "pkg" 1 false meta_pypi (world [] [entry_extra_key])).2
  = Return 1%positive
  /\ logger (from_pipfile_lock_entry "pkg" 1 false meta_pypi
               (world [] [entry_extra_key])).1
     = [WarningUnusedEntries "pkg" {[ "editable" := VStr "true" ]};
        DebugParsingLockEntry "pkg" entry_extra_key].
Proof.
  destruct (lock_entry_leftover (world [] [entry_extra_key]) "pkg" 1%positive false
              meta_pypi entry_extra_key "==1.0.0" ["sha256:aa"] (Some pypi) None)
    as (Hrun & _ & Hwarn & _).
  - reflexivity.
  - reflexivity.
  - discriminate.
  - reflexivity.
  - discriminate.
  - split; [eauto | reflexivity].
  - reflexivity.
  - split; [exact Hrun|].
    assert (Hrest : delete "markers" (delete "hashes" (delete "index"
                      (delete "version" entry_extra_key))) ≠ ∅).
    { intros Hrest. apply (f_equal (fun m : dict => m !! "editable")) in Hrest.
      vm_compute in Hrest. discriminate Hrest. }
    etransitivity; [exact (Hwarn Hrest)|]. reflexivity.
Defined.

Lemma parse_then_serialise_witness :
  (to_pipfile_lock 1
     (from_pipfile_lock_entry "pkg" 1 false meta_pypi (world [] [entry_complete])).1).2
  = Return {[ "pkg" := entry_complete ]}.
Proof.
  apply (parse_then_serialise (world [] [entry_complete]) "pkg" 1%positive false
           meta_pypi entry_complete "==1.0.0" ["sha256:aa"]).
  - reflexivity.
  - intros k [x Hk].
    destruct (decide (k ∈ ["version"; "hashes"; "index"; "markers"])) as [Hin|Hnin];
      [exact Hin|].
    exfalso. rewrite !elem_of_cons, elem_of_nil in Hnin. unfold entry_complete, entry_pypi in Hk.
    rewrite !lookup_insert_ne, lookup_empty in Hk by (intros <-; tauto).
    discriminate Hk.
  - reflexivity.
  - reflexivity.
  - reflexivity.
  - discriminate.
  - right. exists "pypi", pypi. repeat split.
  - right. exists "os_name == 'nt'". split; [reflexivity | discriminate].
Defined.

Lemma pipfile_roundtrip_witness :
  (reparse_pipfile "pkg" (pipfile_value with_markers) false meta_pypi (world [] [])).2
  = Return 1%positive
  /\ objs (reparse_pipfile "pkg" (pipfile_value with_markers) false meta_pypi
             (world [] [])).1 !! 1%positive
     = Some (package "pkg" ">=1.0" None [] None).
Proof.
  apply (pipfile_roundtrip (world [] []) with_markers meta_pypi).
  intros src Hsrc. discriminate Hsrc.
Defined.

Lemma pipfile_entry_spec_witness :
  (from_pipfile_entry "pkg" (EntryDict 1) false meta_pypi (world [] [entry_plain])).2
  = Return 1%positive
  /\ objs (from_pipfile_entry "pkg" (EntryDict 1) false meta_pypi
             (world [] [entry_plain])).1 !! 1%positive
     = Some (package "pkg" ">=1.0" (Some pypi) [] None).
Proof.
  apply (proj1 (proj2 (pipfile_entry_spec (world [] [entry_plain]) "pkg" false meta_pypi)
                  1%positive entry_plain eq_refl eq_refl eq_refl eq_refl eq_refl)
           ">=1.0" (Some pypi)).
  - reflexivity.
  - split; [eauto | reflexivity].
Defined.

Lemma constructors_preserve_witness :
  objs (from_pipfile_lock_entry "pkg" 1 false meta_pypi
          (world [from_mirror] [entry_pypi])).1 !! 1%positive
  = Some from_mirror.
Proof.
  destruct (from_pipfile_lock_entry "pkg" 1 false meta_pypi
              (world [from_mirror] [entry_pypi])) as [w' o] eqn:Hrun.
  apply (proj1 (constructors_preserve "pkg" false meta_pypi) 1%positive _ _ _ Hrun).
  reflexivity.
Defined.

End MoreSamples.

(** ** Equality and order of instances *)

Section ComparisonFacts.

Context `{Semver} `{!Comparisons}.

Lemma option_eq_String_false (x y : option string) :
  x ≠ y -> option_eq String.eqb x y = false.
Proof.
  destruct x as [a|], y as [b|]; cbn; intros Hne; try reflexivity.
  - apply String.eqb_neq. congruence.
  - congruence.
Qed.

(** C1, as the code runs: the [__eq__] that [attr.s] generates compares
    every attribute. Two instances that differ in [develop], in [hashes] or
    in [markers] are not equal, also when their names, versions and indexes
    are the same. *)
Theorem eq_compares_all_attributes w self other a b :
  objs w !! self = Some a ->
  objs w !! other = Some b ->
  develop a ≠ develop b \/ hashes a ≠ hashes b \/ markers a ≠ markers b ->
  __eq__ self other w = (w, Return false).
Proof.
  intros Ha Hb Hd.
  assert (Hne : self ≠ other).
  { intros ->. rewrite Ha in Hb. injection Hb as <-. tauto. }
  unfold __eq__.
  rewrite (bind_Return _ _ _ _ _ (load_run _ _ _ Ha)).
  rewrite (bind_Return _ _ _ _ _ (load_run _ _ _ Hb)).
  rewrite bool_decide_eq_false_2 by exact Hne.
  unfold ret. do 2 f_equal. unfold attrs_eq.
  destruct Hd as [Hd|[Hd|Hd]].
  - assert (Bool.eqb (develop a) (develop b) = false) as ->.
    { destruct (develop a), (develop b); try reflexivity; congruence. }
    now rewrite !andb_false_r.
  - rewrite (bool_decide_eq_false_2 _ Hd). now rewrite !andb_false_r.
  - rewrite (option_eq_String_false _ _ Hd). now rewrite !andb_false_r.
Qed.

(** C4, as the code runs: the [__lt__] and [__gt__] that [attr.s]
    generates order the tuples of attributes. Between instances of
    different names they raise nothing and answer by the order of the two
    names as text; between instances of the same name and different
    versions they answer by the order of the two version strings as text,
    without parsing them. The store is left as it was. *)
Theorem ordering_by_attributes w self other a b :
  objs w !! self = Some a ->
  objs w !! other = Some b ->
  (name a ≠ name b ->
   __lt__ self other w = (w, Return (String.ltb (name a) (name b)))
   /\ __gt__ self other w = (w, Return (String.ltb (name b) (name a))))
  /\ (name a = name b -> version a ≠ version b ->
      __lt__ self other w = (w, Return (String.ltb (version a) (version b)))
      /\ __gt__ self other w = (w, Return (String.ltb (version b) (version a)))).
Proof.
  intros Ha Hb. split.
  - intros Hn.
    assert (Hne : self ≠ other).
    { intros ->. rewrite Ha in Hb. injection Hb as <-. tauto. }
    split; [unfold __lt__ | unfold __gt__];
      rewrite (bind_Return _ _ _ _ _ (load_run _ _ _ Ha));
      rewrite (bind_Return _ _ _ _ _ (load_run _ _ _ Hb));
      rewrite bool_decide_eq_false_2 by exact Hne;
      unfold attrs_order; now rewrite (String_eqb_false _ _ Hn).
  - intros Hn Hv.
    assert (Hne : self ≠ other).
    { intros ->. rewrite Ha in Hb. injection Hb as <-. tauto. }
    split; [unfold __lt__ | unfold __gt__];
      rewrite (bind_Return _ _ _ _ _ (load_run _ _ _ Ha));
      rewrite (bind_Return _ _ _ _ _ (load_run _ _ _ Hb));
      rewrite bool_decide_eq_false_2 by exact Hne;
      unfold attrs_order; rewrite Hn, String.eqb_refl; cbn [negb];
      now rewrite (String_eqb_false _ _ Hv).
Qed.

End ComparisonFacts.

Section ComparisonSamples.

#[local] Existing Instance PySemver_instance.
#[local] Existing Instance PySemver_comparisons.

Import Examples.

(** Same name, version and index, and not equal: one has hashes, the other
    has none. *)
Lemma eq_compares_all_attributes_witness :
  name from_pypi = name from_pypi_bare
  /\ version from_pypi = version from_pypi_bare
  /\ index from_pypi = index from_pypi_bare
  /\ __eq__ 1 2 (world [from_pypi; from_pypi_bare] [])
     = (world [from_pypi; from_pypi_bare] [], Return false).
Proof.
  split; [reflexivity|]. split; [reflexivity|]. split; [reflexivity|].
  apply (eq_compares_all_attributes (world [from_pypi; from_pypi_bare] [])
           1%positive 2%positive from_pypi from_pypi_bare); try reflexivity.
  right. left. discriminate.
Defined.

(** Different names, and no error; and 10.0.0 is not greater than 9.0.0. *)
Lemma ordering_by_attributes_witness :
  __lt__ 1 3 (world [v1; v2; other_name] [])
  = (world [v1; v2; other_name] [], Return false)
  /\ __gt__ 1 2 (world [v10; v9] []) = (world [v10; v9] [], Return false).
Proof.
  split.
  - apply (proj1 (ordering_by_attributes (world [v1; v2; other_name] []) 1%positive
                    3%positive v1 other_name eq_refl eq_refl)).
    discriminate.
  - apply (proj2 (ordering_by_attributes (world [v10; v9] []) 1%positive 2%positive
                    v10 v9 eq_refl eq_refl)).
    + reflexivity.
    + discriminate.
Defined.

End ComparisonSamples.
